(** * Cyberwave Edge: the command-driven stream lifecycle controller

    A shallow embedding of [cyberwave_edge/config.py] and
    [cyberwave_edge/service.py].

    The service talks to collaborators that are not part of the repository:
    the Cyberwave SDK client, its MQTT channel, the video stream handle it
    hands out, the logging module and the process environment.  Every call
    into one of them is recorded in a trace, and what the call does (return
    or raise) is read from an environment record, so that each theorem
    quantifies over the behaviour of the collaborators.

    Scope of the model.
    - "raises" means: raises an instance of [Exception], the class every
      handler of the source catches.  [asyncio.CancelledError],
      [KeyboardInterrupt] and [SystemExit] raised by a collaborator are
      outside the model.
    - Calls of the logging module and [asyncio.sleep] return.
    - A stream handle answers an operation the same way each time the
      operation is called on it; the SDK client, its [mqtt] attribute and a
      stream handle are truthy objects.
    - One coroutine is executed from its first statement to its last: the
      interleaving of coroutines at [await] points is not modelled.  The
      acquisition and release of [_video_operation_lock] are trace events. *)

From Stdlib Require Import ZArith String List Bool Sorted.
From stdpp Require Import base option list strings gmap.
Import ListNotations.

Local Open Scope string_scope.
Local Open Scope Z_scope.
Local Open Scope list_scope.

Set Warnings "-register-all,-clear-no-such-hyp".

(** ** Python values *)

Module Py.

(** A decoded JSON message body.  A float is kept only as far as the code
    observes it: whether it is zero. *)
Inductive value : Type :=
| VNone
| VBool (b : bool)
| VInt (z : Z)
| VFloat (nonzero : bool)
| VStr (s : string)
| VList (l : list value)
| VDict (d : gmap string value).

(** [bool(v)] *)
Definition truthy (v : value) : bool :=
  match v with
  | VNone => false
  | VBool b => b
  | VInt z => negb (z =? 0)
  | VFloat nz => nz
  | VStr s => negb (String.eqb s "")
  | VList l => match l with [] => false | _ => true end
  | VDict d => negb (bool_decide (d = ∅))
  end.

(** [v == s] for a string literal [s] *)
Definition eq_str (v : value) (s : string) : bool :=
  match v with
  | VStr s' => String.eqb s' s
  | _ => false
  end.

(** [not o] for an [Optional[str]] *)
Definition str_falsy (o : option string) : bool :=
  match o with
  | None => true
  | Some s => String.eqb s ""
  end.

End Py.

(** ** Collaborators, traces and the effect monad *)

(** What a call into a collaborator does. *)
Inductive outcome : Type := Returns | Raises.

(** What a guard of the form [hasattr(x, 'a') and x.a] evaluates to: the
    attribute is missing or falsy, it is truthy, or reading it raises. *)
Inductive probe : Type := PFalse | PTrue | PRaises.

Inductive level : Type := DEBUG | INFO | WARNING | ERROR.

(** The two coroutines the command callback can schedule. *)
Inductive handler : Type := StartVideo | StopVideo.

(** The calls into collaborators; a stream handle is named by its [hid]. *)
Inductive call : Type :=
| Cyberwave_new
| mqtt_connect
| mqtt_disconnect
| client_disconnect
| subscribe_command_message (twin : option string)
| publish_command_message (twin : option string) (msg : string)
| run_coroutine_threadsafe (h : handler)
| TimeReference_new
| client_video_stream (twin : option string) (camera_id fps : Z)
| stream_start (h : nat)
| stream_stop (h : nat)
| pc_close (h : nat)
| pc_on (h : nat) (ev : string)
| pc_getSenders (h : nat)
| streamer_close (h : nat)
| streamer_release (h : nat)
| create_task_log_frame_count (h : nat)
| asyncio_sleep.

Inductive exn : Type :=
| ValueError (msg : string)
| RuntimeError (msg : string)
| Raised_by (c : call)
| Raised_by_probe (h : nat) (attr : string).

(** A log record carries the literal part of its message; the interpolated
    exception text is left out. *)
Inductive event : Type :=
| Log (lv : level) (msg : string)
| Call (c : call) (r : outcome)
| Acquire
| Release
| Assign_video_stream (h : option nat).

Inductive result (A : Type) : Type :=
| Ret (a : A)
| Raise (e : exn).
Arguments Ret {A} a.
Arguments Raise {A} e.

#[global] Instance outcome_eq_dec : EqDecision outcome.
Proof. solve_decision. Defined.
#[global] Instance probe_eq_dec : EqDecision probe.
Proof. solve_decision. Defined.
#[global] Instance level_eq_dec : EqDecision level.
Proof. solve_decision. Defined.
#[global] Instance handler_eq_dec : EqDecision handler.
Proof. solve_decision. Defined.
#[global] Instance call_eq_dec : EqDecision call.
Proof. solve_decision. Defined.
#[global] Instance event_eq_dec : EqDecision event.
Proof. solve_decision. Defined.

(** ** config.py *)

Module Config.

Record EdgeConfig : Type := {
  cyberwave_token : option string;
  cyberwave_base_url : string;
  mqtt_host : option string;
  mqtt_port : Z;
  mqtt_username : option string;
  mqtt_password : option string;
  edge_uuid : string;
  twin_uuid : option string;
  camera_id : Z;
  camera_fps : Z;
  log_level : string
}.

(** The defaults of the dataclass fields. *)
Definition defaults : EdgeConfig := {|
  cyberwave_token := None;
  cyberwave_base_url := "https://api.cyberwave.com";
  mqtt_host := None;
  mqtt_port := 1883;
  mqtt_username := None;
  mqtt_password := None;
  edge_uuid := "edge-device-001";
  twin_uuid := None;
  camera_id := 0;
  camera_fps := 10;
  log_level := "INFO"
|}.

(** [EdgeConfig.validate], with the records it logs. *)
Definition validate (self : EdgeConfig) : list event * bool :=
  if Py.str_falsy (cyberwave_token self) then
    ([Log ERROR "CYBERWAVE_TOKEN is required"], false)
  else if Py.str_falsy (twin_uuid self) then
    ([Log ERROR "CYBERWAVE_TWIN_UUID is required"], false)
  else ([], true).

Section Loading.

(** Python's [int] on a string ([None]: [ValueError]) and [str.strip]. *)
Variable py_int : string -> option Z.
Variable py_strip : string -> string.

Implicit Types environ : gmap string string.

(** [os.getenv(key, default)] for the three kinds of default. *)
Definition getenv_opt environ (key : string) (default : option string)
  : option string :=
  match environ !! key with
  | Some v => Some v
  | None => default
  end.

Definition getenv_str environ (key : string) (default : string) : string :=
  match environ !! key with
  | Some v => v
  | None => default
  end.

(** [int(os.getenv(key, default))] with an [int] default. *)
Definition getenv_int environ (key : string) (default : Z) : result Z :=
  match environ !! key with
  | Some v =>
      match py_int v with
      | Some z => Ret z
      | None => Raise (ValueError "invalid literal for int()")
      end
  | None => Ret default
  end.

(** [EdgeConfig()]: the field defaults, then [__post_init__]. *)
Definition EdgeConfig_new environ : list event * result EdgeConfig :=
  let self := defaults in
  match getenv_int environ "CYBERWAVE_MQTT_PORT" (mqtt_port self) with
  | Raise e => ([], Raise e)
  | Ret port =>
  match getenv_int environ "CAMERA_ID" (camera_id self) with
  | Raise e => ([], Raise e)
  | Ret cam =>
  match getenv_int environ "CAMERA_FPS" (camera_fps self) with
  | Raise e => ([], Raise e)
  | Ret fps =>
      ([Log INFO "Configuration loaded"],
       Ret {|
         cyberwave_token :=
           getenv_opt environ "CYBERWAVE_TOKEN" (cyberwave_token self);
         cyberwave_base_url :=
           getenv_str environ "CYBERWAVE_BASE_URL" (cyberwave_base_url self);
         mqtt_host := getenv_opt environ "CYBERWAVE_MQTT_HOST" (mqtt_host self);
         mqtt_port := port;
         mqtt_username :=
           getenv_opt environ "CYBERWAVE_MQTT_USERNAME" (mqtt_username self);
         mqtt_password :=
           getenv_opt environ "CYBERWAVE_MQTT_PASSWORD" (mqtt_password self);
         edge_uuid := getenv_str environ "CYBERWAVE_EDGE_UUID" (edge_uuid self);
         twin_uuid := getenv_opt environ "CYBERWAVE_TWIN_UUID" (twin_uuid self);
         camera_id := cam;
         camera_fps := fps;
         log_level := getenv_str environ "LOG_LEVEL" (log_level self)
       |})
  end end end.

(** [if env_file.exists(): load_dotenv(dotenv_path=env_file,
    override=False)].  [dotenv] is the content of the file as
    [load_dotenv] reads it, [None] when the file does not exist; a
    variable already set keeps its value. *)
Definition load_dotenv environ (dotenv : option (gmap string string))
  : gmap string string :=
  match dotenv with
  | Some file => environ ∪ file
  | None => environ
  end.

(** [load_config(env_file)].  [environ] is [os.environ] when the function
    is called.  The result comes with the updated [os.environ] and the
    log records. *)
Definition load_config environ (dotenv : option (gmap string string))
  : gmap string string * list event * result EdgeConfig :=
  let environ1 := load_dotenv environ dotenv in
  let log1 :=
    match dotenv with
    | Some _ => [Log INFO "Loading configuration from"]
    | None => []
    end in
  let env_value := py_strip (getenv_str environ1 "ENVIRONMENT" "") in
  let '(environ2, log2) :=
    if String.eqb env_value "" then
      (<["ENVIRONMENT" := "production"]> environ1, [])
    else
      (environ1, [Log WARNING ".env file not found, using environment variables only"]) in
  match EdgeConfig_new environ2 with
  | (log3, Raise e) => (environ2, log1 ++ log2 ++ log3, Raise e)
  | (log3, Ret config) =>
      let '(log4, valid) := validate config in
      if valid then (environ2, log1 ++ log2 ++ log3 ++ log4, Ret config)
      else (environ2, log1 ++ log2 ++ log3 ++ log4,
            Raise (ValueError "Invalid configuration. Please check your .env file or environment variables."))
  end.

End Loading.

End Config.

(** ** service.py *)

Module Service.
Import Config.

(** The SDK client, as far as the service inspects it. *)
Record Cyberwave : Type := {
  mqtt_connected : bool;      (* [client.mqtt.connected] after construction *)
  has_disconnect : bool       (* [hasattr(client, "disconnect")] *)
}.

(** A stream handle returned by [client.video_stream(...)]: its name and
    what each of its operations does when the service calls it. *)
Record StreamHandle : Type := {
  hid : nat;
  start_result : outcome;             (* [await video_stream.start()] *)
  stop_result : outcome;              (* [await video_stream.stop()] *)
  pc_probe : probe;                   (* [hasattr(h, 'pc') and h.pc] *)
  pc_close_result : outcome;          (* [await h.pc.close()] *)
  pc_on_result : outcome;             (* [pc.on(...)] *)
  getSenders_result : outcome;        (* [pc.getSenders()] *)
  live_senders : list bool;           (* per sender: is its track live *)
  streamer_probe : probe;             (* [hasattr(h, 'streamer') and h.streamer] *)
  streamer_close_result : outcome;    (* [h.streamer.close()] *)
  streamer_has_frame_count : bool;    (* [hasattr(streamer, 'frame_count')] *)
  streamer_has_release : bool;        (* [hasattr(h.streamer, 'release')] *)
  streamer_release_result : outcome   (* [h.streamer.release()] *)
}.

(** The fields of [EdgeService]; [event_loop] records whether the field is
    set.  [start_time] and the lock object are left out: the lock shows
    as [Acquire] and [Release] in the trace. *)
Record EdgeService : Type := {
  config : EdgeConfig;
  running : bool;
  client : option Cyberwave;
  video_stream : option StreamHandle;
  event_loop : bool
}.

(** [EdgeService.__init__] *)
Definition EdgeService_new (cfg : EdgeConfig) : EdgeService := {|
  config := cfg;
  running := false;
  client := None;
  video_stream := None;
  event_loop := false
|}.

Definition set_running (b : bool) (s : EdgeService) : EdgeService :=
  {| config := config s; running := b; client := client s;
     video_stream := video_stream s; event_loop := event_loop s |}.

Definition set_client (c : option Cyberwave) (s : EdgeService) : EdgeService :=
  {| config := config s; running := running s; client := c;
     video_stream := video_stream s; event_loop := event_loop s |}.

Definition set_video_stream (v : option StreamHandle) (s : EdgeService)
  : EdgeService :=
  {| config := config s; running := running s; client := client s;
     video_stream := v; event_loop := event_loop s |}.

Definition set_event_loop (b : bool) (s : EdgeService) : EdgeService :=
  {| config := config s; running := running s; client := client s;
     video_stream := video_stream s; event_loop := b |}.

(** How the collaborators answer during one run of a coroutine. *)
Record Env : Type := {
  Cyberwave_result : option Cyberwave;          (* [None]: the constructor raises *)
  mqtt_connect_result : outcome;
  subscribe_result : outcome;
  mqtt_disconnect_result : outcome;
  client_disconnect_result : outcome;
  publish_result : string -> outcome;           (* by message published *)
  schedule_result : outcome;                    (* [run_coroutine_threadsafe] *)
  TimeReference_result : outcome;
  video_stream_result : option StreamHandle;    (* [None]: [client.video_stream] raises *)
  signal_after : nat                            (* idle iterations before SIGINT/SIGTERM *)
}.

(** *** The effect monad: state, exceptions and a trace *)

Definition M (A : Type) : Type :=
  EdgeService -> list event * EdgeService * result A.

#[global] Instance M_ret : MRet M := fun A a s => ([], s, Ret a).

#[global] Instance M_bind : MBind M := fun A B f m s =>
  match m s with
  | (t1, s1, Ret a) => let '(t2, s2, r) := f a s1 in (t1 ++ t2, s2, r)
  | (t1, s1, Raise e) => (t1, s1, Raise e)
  end.

#[global] Typeclasses Opaque M.

(** The three components of a run. *)
Definition trace_of {A} (x : list event * EdgeService * result A) : list event :=
  x.1.1.
Definition state_of {A} (x : list event * EdgeService * result A) : EdgeService :=
  x.1.2.
Definition result_of {A} (x : list event * EdgeService * result A) : result A :=
  x.2.

Definition emit (e : event) : M unit := fun s => ([e], s, Ret tt).
Definition log (lv : level) (msg : string) : M unit := emit (Log lv msg).
Definition raise {A} (e : exn) : M A := fun s => ([], s, Raise e).
Definition gets {A} (f : EdgeService -> A) : M A := fun s => ([], s, Ret (f s)).
Definition modify (f : EdgeService -> EdgeService) : M unit :=
  fun s => ([], f s, Ret tt).

(** A call into a collaborator. *)
Definition invoke (c : call) (r : outcome) : M unit := fun s =>
  ([Call c r], s,
   match r with Returns => Ret tt | Raises => Raise (Raised_by c) end).

(** A call into a collaborator that hands back an object ([None]: it
    raises). *)
Definition invoke_returning {A} (c : call) (r : option A) : M A := fun s =>
  match r with
  | Some a => ([Call c Returns], s, Ret a)
  | None => ([Call c Raises], s, Raise (Raised_by c))
  end.

(** [try: m  except Exception as e: h e] *)
Definition try_except {A} (m : M A) (h : exn -> M A) : M A := fun s =>
  match m s with
  | (t1, s1, Ret a) => (t1, s1, Ret a)
  | (t1, s1, Raise e) => let '(t2, s2, r) := h e s1 in (t1 ++ t2, s2, r)
  end.

(** [try: m  finally: f] *)
Definition try_finally {A} (m : M A) (f : M unit) : M A := fun s =>
  let '(t1, s1, r1) := m s in
  match f s1 with
  | (t2, s2, Ret _) => (t1 ++ t2, s2, r1)
  | (t2, s2, Raise e) => (t1 ++ t2, s2, Raise e)
  end.

(** [async with self._video_operation_lock: m] *)
Definition with_lock {A} (m : M A) : M A :=
  emit Acquire;; try_finally m (emit Release).

(** [self.video_stream = v] *)
Definition assign_video_stream (v : option StreamHandle) : M unit :=
  emit (Assign_video_stream (hid <$> v));; modify (set_video_stream v).

(** Evaluating a guard [hasattr(h, attr) and h.attr]. *)
Definition check (h : StreamHandle) (attr : string) (p : probe) : M bool :=
  match p with
  | PFalse => mret false
  | PTrue => mret true
  | PRaises => raise (Raised_by_probe (hid h) attr)
  end.

Definition when (b : bool) (m : M unit) : M unit := if b then m else mret tt.

Fixpoint for_each {A} (l : list A) (body : A -> M unit) : M unit :=
  match l with
  | [] => mret tt
  | x :: l' => body x;; for_each l' body
  end.

(** [payload = data if isinstance(data, dict) else {}] *)
Definition payload_of (data : Py.value) : gmap string Py.value :=
  match data with
  | Py.VDict d => d
  | _ => ∅
  end.

(** [payload.get("command")] *)
Definition command_type_of (data : Py.value) : Py.value :=
  default Py.VNone (payload_of data !! "command").

(** The two command values the callback acts on. *)
Definition recognized (command_type : Py.value) : bool :=
  Py.eq_str command_type "start_video" || Py.eq_str command_type "stop_video".

Section WithEnv.

Variable env : Env.

(** [client.mqtt.publish_command_message(self.config.twin_uuid, msg)] *)
Definition publish (msg : string) : M unit :=
  cfg ← gets config;
  invoke (publish_command_message (twin_uuid cfg) msg) (publish_result env msg).

(** [stop_video_stream] *)
Definition stop_video_stream : M unit :=
  vs ← gets video_stream;
  match vs with
  | None => mret tt
  | Some stream_to_stop =>
      let h := hid stream_to_stop in
      assign_video_stream None;;
      try_except
        (has_pc ← check stream_to_stop "pc" (pc_probe stream_to_stop);
         when has_pc
           (try_except
              (invoke (pc_close h) (pc_close_result stream_to_stop);;
               invoke asyncio_sleep Returns)
              (fun pc_error => log WARNING "Error closing peer connection"));;
         has_streamer ←
           check stream_to_stop "streamer" (streamer_probe stream_to_stop);
         when has_streamer
           (try_except
              (invoke (streamer_close h) (streamer_close_result stream_to_stop))
              (fun streamer_error => log WARNING "Error closing streamer"));;
         try_except
           (invoke (stream_stop h) (stop_result stream_to_stop))
           (fun e => log ERROR "Error stopping stream"))
        (fun e =>
           log ERROR "Error stopping video stream";;
           try_except
             (has_streamer ←
                check stream_to_stop "streamer" (streamer_probe stream_to_stop);
              when has_streamer
                (when (streamer_has_release stream_to_stop)
                   (invoke (streamer_release h)
                      (streamer_release_result stream_to_stop))))
             (fun cleanup_error => log ERROR "Error during cleanup"))
  end.

(** [_setup_frame_monitoring]; the periodic task it creates is a trace
    event, its body is not modelled. *)
Definition _setup_frame_monitoring (video_stream : StreamHandle) : M unit :=
  let h := hid video_stream in
  try_except
    (has_pc ← check video_stream "pc" (pc_probe video_stream);
     when has_pc
       (invoke (pc_on h "connectionstatechange") (pc_on_result video_stream);;
        invoke (pc_on h "iceconnectionstatechange") (pc_on_result video_stream);;
        invoke (pc_getSenders h) (getSenders_result video_stream);;
        for_each (live_senders video_stream)
          (fun live => when live (log DEBUG "Video track active"));;
        has_streamer ←
          check video_stream "streamer" (streamer_probe video_stream);
        when has_streamer
          (when (streamer_has_frame_count video_stream)
             (invoke (create_task_log_frame_count h) Returns))))
    (fun e => log WARNING "Error setting up frame monitoring").

(** The [except] block of [start_video_stream]; [local] is the value of
    the local variable [video_stream] when the exception was raised. *)
Definition start_cleanup {A} (local : option StreamHandle) (e : exn) : M A :=
  log ERROR "Error starting video stream";;
  match local with
  | Some h =>
      try_except
        (invoke (stream_stop (hid h)) (stop_result h))
        (fun cleanup_error => log ERROR "Error during cleanup")
  | None => mret tt
  end;;
  assign_video_stream None;;
  raise e.

(** [start_video_stream].  The [try] block is written in two parts, one
    for each value the local variable [video_stream] has when the
    [except] block reads it: [None] until [client.video_stream(...)] has
    returned, the new handle afterwards. *)
Definition start_video_stream : M unit :=
  c ← gets client;
  match c with
  | None =>
      log ERROR "Client not connected";;
      raise (RuntimeError "Client not connected")
  | Some _ =>
      stale ← gets video_stream;
      match stale with
      | Some _ =>
          try_except stop_video_stream
            (fun e => log ERROR "Error stopping existing stream")
      | None => mret tt
      end;;
      cfg ← gets config;
      new ←
        try_except
          (invoke TimeReference_new (TimeReference_result env);;
           let camera := if camera_id cfg =? 0 then 0 else camera_id cfg in
           let fps := if camera_fps cfg =? 0 then 20 else camera_fps cfg in
           invoke_returning (client_video_stream (twin_uuid cfg) camera fps)
             (video_stream_result env))
          (start_cleanup None);
      try_except
        (invoke (stream_start (hid new)) (start_result new);;
         assign_video_stream (Some new);;
         _setup_frame_monitoring new)
        (start_cleanup (Some new))
  end.

(** [_handle_start_video_command] *)
Definition _handle_start_video_command : M unit :=
  c ← gets client;
  match c with
  | None => log ERROR "Client not available"
  | Some _ =>
      with_lock
        (try_except
           (vs ← gets video_stream;
            let video_already_running := bool_decide (is_Some vs) in
            when (negb video_already_running) start_video_stream;;
            publish "ok")
           (fun e =>
              log ERROR "Error handling start_video command";;
              c ← gets client;
              when (bool_decide (is_Some c)) (publish "error")))
  end.

(** [_handle_stop_video_command] *)
Definition _handle_stop_video_command : M unit :=
  c ← gets client;
  match c with
  | None => log ERROR "Client not available"
  | Some _ =>
      with_lock
        (try_except
           (vs ← gets video_stream;
            let video_was_running := bool_decide (is_Some vs) in
            when video_was_running stop_video_stream;;
            publish "ok")
           (fun e =>
              log ERROR "Error handling stop_video command";;
              c ← gets client;
              when (bool_decide (is_Some c)) (publish "error")))
  end.

(** The callback [on_command_message] that [_subscribe_to_commands]
    registers. *)
Definition on_command_message (data : Py.value) : M unit :=
  try_except
    (let payload := payload_of data in
     if bool_decide (is_Some (payload !! "status")) then mret tt
     else
       let command_type := command_type_of data in
       if negb (Py.truthy command_type) then
         log WARNING "Command message missing command field"
       else
         loop ← gets event_loop;
         if negb loop then
           log ERROR "Event loop not available, cannot process command"
         else if Py.eq_str command_type "start_video" then
           invoke (run_coroutine_threadsafe StartVideo) (schedule_result env)
         else if Py.eq_str command_type "stop_video" then
           invoke (run_coroutine_threadsafe StopVideo) (schedule_result env)
         else log WARNING "Unknown command type")
    (fun e => log ERROR "Error processing command message").

(** The event loop running a coroutine that the callback scheduled. *)
Definition run_handler (h : handler) : M unit :=
  match h with
  | StartVideo => _handle_start_video_command
  | StopVideo => _handle_stop_video_command
  end.

(** [_subscribe_to_commands] *)
Definition _subscribe_to_commands : M unit :=
  c ← gets client;
  cfg ← gets config;
  if negb (bool_decide (is_Some c)) || Py.str_falsy (twin_uuid cfg) then
    log ERROR "Client or twin_uuid not available for command subscription"
  else
    invoke (subscribe_command_message (twin_uuid cfg)) (subscribe_result env).

(** [connect] *)
Definition connect : M unit :=
  c ← invoke_returning Cyberwave_new (Cyberwave_result env);
  modify (set_client (Some c));;
  when (negb (mqtt_connected c)) (invoke mqtt_connect (mqtt_connect_result env));;
  _subscribe_to_commands.

(** [shutdown] *)
Definition shutdown : M unit :=
  modify (set_running false);;
  vs ← gets video_stream;
  when (bool_decide (is_Some vs)) stop_video_stream;;
  c ← gets client;
  match c with
  | Some cl =>
      try_except
        (invoke mqtt_disconnect (mqtt_disconnect_result env))
        (fun e => log ERROR "Error disconnecting from MQTT");;
      when (has_disconnect cl)
        (try_except
           (invoke client_disconnect (client_disconnect_result env))
           (fun e => log ERROR "Error disconnecting from Cyberwave client"))
  | None => mret tt
  end.

(** [while self.running: await asyncio.sleep(1)].  The signal handler
    sets [running] to [False]; [n] is the number of iterations the loop
    makes before it sees that. *)
Fixpoint idle (n : nat) : M unit :=
  match n with
  | O => modify (set_running false)
  | S k => invoke asyncio_sleep Returns;; idle k
  end.

(** [run] *)
Definition run : M unit :=
  modify (set_running true);;
  modify (set_event_loop true);;
  try_finally
    (try_except
       (connect;;
        invoke asyncio_sleep Returns;;
        log INFO "Edge service is running. Press Ctrl+C to stop.";;
        idle (signal_after env))
       (fun e => log ERROR "Error in edge service";; raise e))
    shutdown.

End WithEnv.

(** What happens to a service, one coroutine or callback at a time. *)
Inductive action : Type :=
| Connect
| Message (data : Py.value)
| Handle (h : handler)
| Shutdown.

Definition perform (env : Env) (a : action) : M unit :=
  match a with
  | Connect => connect env
  | Message data => on_command_message env data
  | Handle h => run_handler env h
  | Shutdown => shutdown env
  end.

(** A history: each action with the answers of the collaborators during
    it.  The result is the whole trace and the service at the end. *)
Fixpoint history (steps : list (Env * action)) (s : EdgeService)
  : list event * EdgeService :=
  match steps with
  | [] => ([], s)
  | (env, a) :: rest =>
      let run := perform env a s in
      let '(tr, s') := history rest (state_of run) in
      (trace_of run ++ tr, s')
  end.

(** A stream is held only by a service that has a client. *)
Definition coherent (s : EdgeService) : Prop :=
  is_Some (video_stream s) -> is_Some (client s).

(** How [async_main] ends: it returns, or [sys.exit] is called. *)
Inductive termination : Type :=
| Returned
| SystemExit (status : Z).

(** The exit status of the process. *)
Definition exit_status (t : termination) : Z :=
  match t with
  | Returned => 0
  | SystemExit n => n
  end.

Section Main.

Variable py_int : string -> option Z.
Variable py_strip : string -> string.
(** [logging.getLogger().setLevel(getattr(logging, level.upper()))] *)
Variable set_level_result : string -> outcome.

(** [async_main]; the set-up of the logging handlers is left out. *)
Definition async_main (env : Env) (environ : gmap string string)
    (dotenv : option (gmap string string)) : list event * termination :=
  let t0 := [Log INFO "Starting Cyberwave Edge Python service..."] in
  let fatal := [Log ERROR "Fatal error"] in
  match load_config py_int py_strip environ dotenv with
  | (_, t1, Raise e) => (t0 ++ t1 ++ fatal, SystemExit 1)
  | (_, t1, Ret config) =>
      let t2 := [Log INFO "Configuration loaded for edge device"] in
      match set_level_result (log_level config) with
      | Raises => (t0 ++ t1 ++ t2 ++ fatal, SystemExit 1)
      | Returns =>
          let service := EdgeService_new config in
          match run env service with
          | (t3, _, Ret _) => (t0 ++ t1 ++ t2 ++ t3, Returned)
          | (t3, _, Raise e) => (t0 ++ t1 ++ t2 ++ t3 ++ fatal, SystemExit 1)
          end
      end
  end.

End Main.

(** *** Reading a trace *)

(** The acknowledgments whose publication was attempted, in order. *)
Definition attempted (tr : list event) : list string :=
  omap (fun e => match e with
                 | Call (publish_command_message _ msg) _ => Some msg
                 | _ => None
                 end) tr.

(** The acknowledgments published: the publish calls that returned. *)
Definition published (tr : list event) : list string :=
  omap (fun e => match e with
                 | Call (publish_command_message _ msg) Returns => Some msg
                 | _ => None
                 end) tr.

(** The calls made, without their outcomes. *)
Definition calls (tr : list event) : list call :=
  omap (fun e => match e with Call c _ => Some c | _ => None end) tr.

(** The warnings logged. *)
Definition warnings (tr : list event) : list string :=
  omap (fun e => match e with Log WARNING msg => Some msg | _ => None end) tr.

(** Constructing or starting a stream handle. *)
Definition is_creation (c : call) : bool :=
  match c with
  | TimeReference_new | client_video_stream _ _ _ | stream_start _ => true
  | _ => false
  end.

(** The teardown calls on a stream handle. *)
Definition is_teardown (c : call) : bool :=
  match c with
  | pc_close _ | streamer_close _ | stream_stop _ | streamer_release _ => true
  | _ => false
  end.

(** Every call of a trace, with the value the field [video_stream] has
    (the name of the handle it holds) when the call is made; [v] is the
    value before the first event. *)
Fixpoint calls_seeing (v : option nat) (tr : list event)
  : list (call * option nat) :=
  match tr with
  | [] => []
  | Assign_video_stream v' :: tr' => calls_seeing v' tr'
  | Call c _ :: tr' => (c, v) :: calls_seeing v tr'
  | _ :: tr' => calls_seeing v tr'
  end.

(** The value of [video_stream] after the assignments of a trace. *)
Fixpoint field_after (v : option nat) (tr : list event) : option nat :=
  match tr with
  | [] => v
  | Assign_video_stream v' :: tr' => field_after v' tr'
  | _ :: tr' => field_after v tr'
  end.

(** *** Properties of a computation, closed under the combinators *)

(** Every event of every run satisfies [P]. *)
Definition emits {A} (P : event -> Prop) (m : M A) : Prop :=
  forall s, Forall P (trace_of (m s)).

(** No run raises. *)
Definition total {A} (m : M A) : Prop :=
  forall s, exists a, result_of (m s) = Ret a.

(** No run changes what [f] reads from the service. *)
Definition keeps {A B} (f : EdgeService -> B) (m : M A) : Prop :=
  forall s, f (state_of (m s)) = f s.

(** Predicates on events. *)
Definition not_publish (e : event) : Prop :=
  match e with
  | Call (publish_command_message _ _) _ => False
  | _ => True
  end.

Definition not_assign (e : event) : Prop :=
  match e with
  | Assign_video_stream _ => False
  | _ => True
  end.

Definition not_call (e : event) : Prop :=
  match e with
  | Call _ _ => False
  | _ => True
  end.

Definition not_lock (e : event) : Prop :=
  match e with
  | Acquire | Release => False
  | _ => True
  end.

(** The events of a teardown: besides log records and assignments, only
    the four teardown calls on a handle and [asyncio.sleep]. *)
Definition only_teardown (e : event) : Prop :=
  match e with
  | Call (pc_close _) _ | Call (streamer_close _) _ | Call (stream_stop _) _
  | Call (streamer_release _) _ | Call asyncio_sleep _ => True
  | Call _ _ => False
  | _ => True
  end.

(** The value of [command] that selects each handler. *)
Definition command_name (h : handler) : string :=
  match h with
  | StartVideo => "start_video"
  | StopVideo => "stop_video"
  end.

(** [await video_stream.start()] *)
Definition is_start (c : call) : bool :=
  match c with
  | stream_start _ => true
  | _ => false
  end.

(** An event that neither assigns [video_stream] nor starts a handle. *)
Definition quiet_event (e : event) : Prop :=
  match e with
  | Assign_video_stream _ => False
  | Call (stream_start _) _ => False
  | _ => True
  end.

(** A call of [start()] made while the field [video_stream] is [None]. *)
Definition starts_on_empty (cv : call * option nat) : Prop :=
  is_start cv.1 = true -> cv.2 = None.

(** In every run, a handle is started only while the service holds none,
    and the assignments of the trace account for the field at the end. *)
Definition tracked {A} (m : M A) : Prop :=
  forall s,
    Forall starts_on_empty
      (calls_seeing (hid <$> video_stream s) (trace_of (m s))) /\
    field_after (hid <$> video_stream s) (trace_of (m s))
    = hid <$> video_stream (state_of (m s)).

(** The loop of [_log_frame_count_periodically].  Each element of
    [readings] is what the task finds when it wakes up from
    [asyncio.sleep(5)]: [None] when the streamer has no [frame_count]
    attribute, its value otherwise.  The loop is followed for as many
    iterations as there are readings. *)
Fixpoint log_frame_counts (last_count : Z) (readings : list (option Z))
  : M unit :=
  match readings with
  | [] => mret tt
  | reading :: rest =>
      is_running ← gets running;
      vs ← gets video_stream;
      if is_running && bool_decide (is_Some vs) then
        invoke asyncio_sleep Returns;;
        match reading with
        | Some current_count =>
            let frames_sent := current_count - last_count in
            (if 0 <? frames_sent then log DEBUG "Video frames"
             else log WARNING "No frames sent in last 5 seconds");;
            log_frame_counts current_count rest
        | None => log_frame_counts last_count rest
        end
      else mret tt
  end.

(** [_log_frame_count_periodically] *)
Definition _log_frame_count_periodically (readings : list (option Z)) : M unit :=
  try_except (log_frame_counts 0 readings)
    (fun e => log ERROR "Error in frame count monitoring").

End Service.

(** ** Concrete collaborators and states *)

Module Scenario.
Import Config Service.

(** A valid configuration. *)
Definition cfg0 : EdgeConfig := {|
  cyberwave_token := Some "token";
  cyberwave_base_url := "https://api.cyberwave.com";
  mqtt_host := None;
  mqtt_port := 1883;
  mqtt_username := None;
  mqtt_password := None;
  edge_uuid := "edge-device-001";
  twin_uuid := Some "twin-1";
  camera_id := 0;
  camera_fps := 10;
  log_level := "INFO"
|}.

Definition sdk : Cyberwave := {| mqtt_connected := false; has_disconnect := true |}.

(** A stream handle all of whose operations return. *)
Definition healthy : StreamHandle := {|
  hid := 1;
  start_result := Returns;
  stop_result := Returns;
  pc_probe := PTrue;
  pc_close_result := Returns;
  pc_on_result := Returns;
  getSenders_result := Returns;
  live_senders := [true];
  streamer_probe := PTrue;
  streamer_close_result := Returns;
  streamer_has_frame_count := true;
  streamer_has_release := true;
  streamer_release_result := Returns
|}.

(** The same handle with a failing [start()]. *)
Definition start_fails : StreamHandle := {|
  hid := 2;
  start_result := Raises;
  stop_result := Returns;
  pc_probe := PTrue;
  pc_close_result := Returns;
  pc_on_result := Returns;
  getSenders_result := Returns;
  live_senders := [true];
  streamer_probe := PTrue;
  streamer_close_result := Returns;
  streamer_has_frame_count := true;
  streamer_has_release := true;
  streamer_release_result := Returns
|}.

(** The same handle with a failing [stop()]. *)
Definition stop_fails : StreamHandle := {|
  hid := 3;
  start_result := Returns;
  stop_result := Raises;
  pc_probe := PTrue;
  pc_close_result := Returns;
  pc_on_result := Returns;
  getSenders_result := Returns;
  live_senders := [true];
  streamer_probe := PTrue;
  streamer_close_result := Returns;
  streamer_has_frame_count := true;
  streamer_has_release := true;
  streamer_release_result := Returns
|}.

(** Collaborators that answer every call; [client.video_stream] hands out
    [h]. *)
Definition env_with (h : StreamHandle) : Env := {|
  Cyberwave_result := Some sdk;
  mqtt_connect_result := Returns;
  subscribe_result := Returns;
  mqtt_disconnect_result := Returns;
  client_disconnect_result := Returns;
  publish_result := fun _ => Returns;
  schedule_result := Returns;
  TimeReference_result := Returns;
  video_stream_result := Some h;
  signal_after := 2
|}.

Definition env0 : Env := env_with healthy.

(** The service before [connect]. *)
Definition fresh : EdgeService := EdgeService_new cfg0.

(** The service once [run] has connected: no stream yet. *)
Definition s0 : EdgeService :=
  set_client (Some sdk) (set_event_loop true (set_running true fresh)).

(** The connected service holding the stream [h]. *)
Definition streaming (h : StreamHandle) : EdgeService :=
  set_video_stream (Some h) s0.

(** Python's [int] on the decimal strings the examples use, and a
    [str.strip] for strings without surrounding white space. *)
Definition py_int0 (s : string) : option Z :=
  if String.eqb s "0" then Some 0
  else if String.eqb s "1" then Some 1
  else if String.eqb s "2" then Some 2
  else None.

Definition py_strip0 (s : string) : string := s.

Definition set_level0 (lv : string) : outcome := Returns.


(** Collaborators whose SDK constructor raises. *)
Definition env_unreachable : Env := {|
  Cyberwave_result := None;
  mqtt_connect_result := Returns;
  subscribe_result := Returns;
  mqtt_disconnect_result := Returns;
  client_disconnect_result := Returns;
  publish_result := fun _ => Returns;
  schedule_result := Returns;
  TimeReference_result := Returns;
  video_stream_result := Some healthy;
  signal_after := 0
|}.

(** Collaborators whose [mqtt.disconnect] and publish calls raise. *)
Definition env_broken_channel : Env := {|
  Cyberwave_result := Some sdk;
  mqtt_connect_result := Returns;
  subscribe_result := Returns;
  mqtt_disconnect_result := Raises;
  client_disconnect_result := Returns;
  publish_result := fun _ => Raises;
  schedule_result := Raises;
  TimeReference_result := Returns;
  video_stream_result := Some healthy;
  signal_after := 0
|}.

(** An environment with a token, a [.env] file with another token and a
    twin identifier, and the configuration loaded from the two. *)
Definition environ1 : gmap string string := {[ "CYBERWAVE_TOKEN" := "env-token" ]}.

Definition dotenv1 : gmap string string :=
  {[ "CYBERWAVE_TOKEN" := "file-token"; "CYBERWAVE_TWIN_UUID" := "twin-1" ]}.

Definition cfg1 : EdgeConfig := {|
  cyberwave_token := Some "env-token";
  cyberwave_base_url := "https://api.cyberwave.com";
  mqtt_host := None;
  mqtt_port := 1883;
  mqtt_username := None;
  mqtt_password := None;
  edge_uuid := "edge-device-001";
  twin_uuid := Some "twin-1";
  camera_id := 0;
  camera_fps := 10;
  log_level := "INFO"
|}.

(** A configuration with a frame rate of 0. *)
Definition cfg_zero_fps : EdgeConfig := {|
  cyberwave_token := Some "token";
  cyberwave_base_url := "https://api.cyberwave.com";
  mqtt_host := None;
  mqtt_port := 1883;
  mqtt_username := None;
  mqtt_password := None;
  edge_uuid := "edge-device-001";
  twin_uuid := Some "twin-1";
  camera_id := 0;
  camera_fps := 0;
  log_level := "INFO"
|}.

End Scenario.

(** * Theorems *)

Module ServiceFacts.
Import Config Service.

(** ** Running the combinators *)

Lemma run_bind {A B} (m : M A) (f : A -> M B) s :
  (m ≫= f) s =
  match m s with
  | (t1, s1, Ret a) => let '(t2, s2, r) := f a s1 in (t1 ++ t2, s2, r)
  | (t1, s1, Raise e) => (t1, s1, Raise e)
  end.
Proof. reflexivity. Qed.

(** ** The traces of the observers split over concatenation *)

Lemma attempted_app t1 t2 : attempted (t1 ++ t2) = attempted t1 ++ attempted t2.
Proof. apply omap_app. Qed.

Lemma published_app t1 t2 : published (t1 ++ t2) = published t1 ++ published t2.
Proof. apply omap_app. Qed.

Lemma attempted_quiet tr : Forall not_publish tr -> attempted tr = [].
Proof.
  induction 1 as [|e tr He _ IH]; [done|].
  destruct e as [| c r | | |]; try exact IH.
  destruct c; try exact IH. destruct He.
Qed.

Lemma published_quiet tr : Forall not_publish tr -> published tr = [].
Proof.
  induction 1 as [|e tr He _ IH]; [done|].
  destruct e as [| c r | | |]; try exact IH.
  destruct c; try exact IH. destruct He.
Qed.

Lemma calls_quiet tr : Forall not_call tr -> calls tr = [].
Proof.
  induction 1 as [|e tr He _ IH]; [done|].
  destruct e; try exact IH. destruct He.
Qed.

(** Without an assignment in the trace, every call sees the value the
    field had at the start. *)
Lemma calls_seeing_const v tr :
  Forall not_assign tr -> Forall (fun cv => cv.2 = v) (calls_seeing v tr).
Proof.
  induction 1 as [|e tr He _ IH]; simpl; [constructor|].
  destruct e; try exact IH.
  - by constructor.
  - destruct He.
Qed.

Lemma field_after_const v tr : Forall not_assign tr -> field_after v tr = v.
Proof.
  induction 1 as [|e tr He _ IH]; simpl; [done|].
  destruct e; try exact IH. destruct He.
Qed.

(** ** Closure of [emits], [total] and [keeps] *)

Section Closure.
Context {A B : Type}.
Variable P : event -> Prop.

Lemma emits_ret (a : A) : emits P (mret a).
Proof. intros s. constructor. Qed.

Lemma emits_raise e : emits P (@raise A e).
Proof. intros s. constructor. Qed.

Lemma emits_gets (f : EdgeService -> A) : emits P (gets f).
Proof. intros s. constructor. Qed.

Lemma emits_bind (m : M A) (f : A -> M B) :
  emits P m -> (forall a, emits P (f a)) -> emits P (m ≫= f).
Proof.
  intros Hm Hf s. specialize (Hm s). rewrite run_bind.
  destruct (m s) as [[t1 s1] [a|e]]; [|exact Hm].
  specialize (Hf a s1). destruct (f a s1) as [[t2 s2] r].
  apply Forall_app. by split.
Qed.

Lemma emits_try_except (m : M A) h :
  emits P m -> (forall e, emits P (h e)) -> emits P (try_except m h).
Proof.
  intros Hm Hh s. specialize (Hm s). unfold try_except.
  destruct (m s) as [[t1 s1] [a|e]]; [exact Hm|].
  specialize (Hh e s1). destruct (h e s1) as [[t2 s2] r].
  apply Forall_app. by split.
Qed.

Lemma emits_try_finally (m : M A) f :
  emits P m -> emits P f -> emits P (try_finally m f).
Proof.
  intros Hm Hf s. specialize (Hm s). unfold try_finally.
  destruct (m s) as [[t1 s1] r1]. specialize (Hf s1).
  destruct (f s1) as [[t2 s2] [[]|e]]; apply Forall_app; by split.
Qed.

Lemma emits_invoke_returning c (r : option A) :
  (forall o, P (Call c o)) -> emits P (invoke_returning c r).
Proof. intros H s. destruct r; repeat constructor; apply H. Qed.
End Closure.

Lemma emits_emit P e : P e -> emits P (emit e).
Proof. intros H s. by repeat constructor. Qed.

Lemma emits_log P lv msg : P (Log lv msg) -> emits P (log lv msg).
Proof. apply emits_emit. Qed.

Lemma emits_modify P f : emits P (modify f).
Proof. intros s. constructor. Qed.

Lemma emits_invoke P c r : P (Call c r) -> emits P (invoke c r).
Proof. intros H s. by repeat constructor. Qed.

Lemma emits_when P b m : emits P m -> emits P (when b m).
Proof. intros H. destruct b; [exact H | apply emits_ret]. Qed.

Lemma emits_check P h attr p : emits P (check h attr p).
Proof. destruct p; intros s; constructor. Qed.

Lemma emits_for_each {A} P (l : list A) body :
  (forall x, emits P (body x)) -> emits P (for_each l body).
Proof.
  intros H. induction l as [|x l IH]; simpl; [apply emits_ret|].
  apply emits_bind; [apply H | intros _; exact IH].
Qed.

Lemma emits_assign P v :
  P (Assign_video_stream (hid <$> v)) -> emits P (assign_video_stream v).
Proof.
  intros H. apply emits_bind; [by apply emits_emit | intros _; apply emits_modify].
Qed.

Lemma emits_with_lock {A} P (m : M A) :
  P Acquire -> P Release -> emits P m -> emits P (with_lock m).
Proof.
  intros Ha Hr Hm. apply emits_bind; [by apply emits_emit|intros _].
  apply emits_try_finally; [exact Hm | by apply emits_emit].
Qed.

Section Totality.
Context {A B : Type}.

Lemma total_ret (a : A) : total (mret a).
Proof. intros s. by exists a. Qed.

Lemma total_gets (f : EdgeService -> A) : total (gets f).
Proof. intros s. by eexists. Qed.

Lemma total_bind (m : M A) (f : A -> M B) :
  total m -> (forall a, total (f a)) -> total (m ≫= f).
Proof.
  intros Hm Hf s. destruct (Hm s) as [a Ha]. rewrite run_bind.
  destruct (m s) as [[t1 s1] r1]. simpl in Ha. subst r1.
  destruct (Hf a s1) as [b Hb]. destruct (f a s1) as [[t2 s2] r2].
  by exists b.
Qed.

Lemma total_try_except (m : M A) h :
  (forall e, total (h e)) -> total (try_except m h).
Proof.
  intros Hh s. unfold try_except. destruct (m s) as [[t1 s1] [a|e]].
  - by exists a.
  - destruct (Hh e s1) as [a Ha]. destruct (h e s1) as [[t2 s2] r2].
    by exists a.
Qed.

Lemma total_try_finally (m : M A) f :
  total m -> total f -> total (try_finally m f).
Proof.
  intros Hm Hf s. unfold try_finally. destruct (Hm s) as [a Ha].
  destruct (m s) as [[t1 s1] r1]. simpl in Ha. subst r1.
  destruct (Hf s1) as [u Hu]. destruct (f s1) as [[t2 s2] r2].
  simpl in Hu. subst r2. by exists a.
Qed.
End Totality.

Lemma total_emit e : total (emit e).
Proof. intros s. by eexists. Qed.

Lemma total_log lv msg : total (log lv msg).
Proof. apply total_emit. Qed.

Lemma total_modify f : total (modify f).
Proof. intros s. by eexists. Qed.

Lemma total_invoke_returns c : total (invoke c Returns).
Proof. intros s. by eexists. Qed.

Lemma total_when b m : total m -> total (when b m).
Proof. intros H. destruct b; [exact H | apply total_ret]. Qed.

Lemma total_for_each {A} (l : list A) body :
  (forall x, total (body x)) -> total (for_each l body).
Proof.
  intros H. induction l as [|x l IH]; simpl; [apply total_ret|].
  apply total_bind; [apply H | intros _; exact IH].
Qed.

Lemma total_assign v : total (assign_video_stream v).
Proof.
  apply total_bind; [apply total_emit | intros _; apply total_modify].
Qed.

Section Frame.
Context {A B C : Type}.
Variable f : EdgeService -> C.

Lemma keeps_ret (a : A) : keeps f (mret a).
Proof. by intros s. Qed.

Lemma keeps_raise e : keeps f (@raise A e).
Proof. by intros s. Qed.

Lemma keeps_gets (g : EdgeService -> A) : keeps f (gets g).
Proof. by intros s. Qed.

Lemma keeps_bind (m : M A) (k : A -> M B) :
  keeps f m -> (forall a, keeps f (k a)) -> keeps f (m ≫= k).
Proof.
  intros Hm Hk s. specialize (Hm s). rewrite run_bind.
  destruct (m s) as [[t1 s1] [a|e]]; [|exact Hm].
  specialize (Hk a s1). destruct (k a s1) as [[t2 s2] r].
  unfold state_of in *. simpl in *. congruence.
Qed.

Lemma keeps_try_except (m : M A) h :
  keeps f m -> (forall e, keeps f (h e)) -> keeps f (try_except m h).
Proof.
  intros Hm Hh s. specialize (Hm s). unfold try_except.
  destruct (m s) as [[t1 s1] [a|e]]; [exact Hm|].
  specialize (Hh e s1). destruct (h e s1) as [[t2 s2] r].
  unfold state_of in *. simpl in *. congruence.
Qed.

Lemma keeps_try_finally (m : M A) k :
  keeps f m -> keeps f k -> keeps f (try_finally m k).
Proof.
  intros Hm Hk s. specialize (Hm s). unfold try_finally.
  destruct (m s) as [[t1 s1] r1]. specialize (Hk s1).
  destruct (k s1) as [[t2 s2] [[]|e]]; unfold state_of in *; simpl in *; congruence.
Qed.

Lemma keeps_invoke_returning c (r : option A) : keeps f (invoke_returning c r).
Proof. intros s. by destruct r. Qed.
End Frame.

Lemma keeps_emit {C} (f : EdgeService -> C) e : keeps f (emit e).
Proof. by intros s. Qed.

Lemma keeps_log {C} (f : EdgeService -> C) lv msg : keeps f (log lv msg).
Proof. by intros s. Qed.

Lemma keeps_invoke {C} (f : EdgeService -> C) c r : keeps f (invoke c r).
Proof. by intros s. Qed.

Lemma keeps_check {C} (f : EdgeService -> C) h attr p : keeps f (check h attr p).
Proof. intros s. by destruct p. Qed.

Lemma keeps_when {C} (f : EdgeService -> C) b m : keeps f m -> keeps f (when b m).
Proof. intros H. destruct b; [exact H | by intros s]. Qed.

Lemma keeps_for_each {A C} (f : EdgeService -> C) (l : list A) body :
  (forall x, keeps f (body x)) -> keeps f (for_each l body).
Proof.
  intros H. induction l as [|x l IH]; simpl; [by intros s|].
  apply keeps_bind; [apply H | intros _; exact IH].
Qed.

Lemma keeps_modify {C} (f : EdgeService -> C) g :
  (forall s, f (g s) = f s) -> keeps f (modify g).
Proof. intros H s. apply H. Qed.

Lemma keeps_assign {C} (f : EdgeService -> C) v :
  (forall s, f (set_video_stream v s) = f s) -> keeps f (assign_video_stream v).
Proof.
  intros H. apply keeps_bind; [apply keeps_emit | intros _; by apply keeps_modify].
Qed.

Lemma keeps_with_lock {A C} (f : EdgeService -> C) (m : M A) :
  keeps f m -> keeps f (with_lock m).
Proof.
  intros Hm. apply keeps_bind; [apply keeps_emit|intros _].
  apply keeps_try_finally; [exact Hm | apply keeps_emit].
Qed.

Create HintDb closure discriminated.

#[local] Hint Resolve
  emits_ret emits_raise emits_gets emits_bind emits_try_except
  emits_try_finally emits_invoke_returning emits_emit emits_log emits_modify
  emits_invoke emits_when emits_check emits_for_each emits_assign
  emits_with_lock
  total_ret total_gets total_bind total_try_except total_try_finally
  total_emit total_log total_modify total_invoke_returns total_when
  total_for_each total_assign
  keeps_ret keeps_raise keeps_gets keeps_bind keeps_try_except
  keeps_try_finally keeps_invoke_returning keeps_emit keeps_log keeps_invoke
  keeps_check keeps_when keeps_for_each keeps_modify keeps_assign
  keeps_with_lock : closure.

#[local] Hint Extern 1 (not_publish _) => exact I : closure.
#[local] Hint Extern 1 (not_assign _) => exact I : closure.
#[local] Hint Extern 1 (not_call _) => exact I : closure.

(** Goes through a computation built from the combinators, splitting on
    the branches of the code. *)
Ltac closure :=
  repeat first
    [ progress intros
    | match goal with
      | |- emits _ (match ?x with _ => _ end) => destruct x
      | |- total (match ?x with _ => _ end) => destruct x
      | |- keeps _ (match ?x with _ => _ end) => destruct x
      end
    | solve [eauto 2 with closure]
    | apply emits_bind | apply emits_try_except | apply emits_when
    | apply emits_for_each | apply emits_with_lock | apply emits_try_finally
    | apply total_bind | apply total_try_except | apply total_when
    | apply total_for_each | apply total_try_finally
    | apply keeps_bind | apply keeps_try_except | apply keeps_when
    | apply keeps_for_each | apply keeps_with_lock | apply keeps_try_finally ].

(** ** The stream sequences *)

Lemma stop_video_stream_quiet : emits not_publish stop_video_stream.
Proof. unfold stop_video_stream. closure. Qed.

Lemma stop_video_stream_total : total stop_video_stream.
Proof. unfold stop_video_stream. closure. Qed.

Lemma stop_video_stream_keeps_client : keeps client stop_video_stream.
Proof. unfold stop_video_stream. closure. Qed.

Lemma setup_frame_monitoring_total h : total (_setup_frame_monitoring h).
Proof. unfold _setup_frame_monitoring. closure. Qed.

Lemma setup_frame_monitoring_pure h : keeps id (_setup_frame_monitoring h).
Proof. unfold _setup_frame_monitoring. closure. Qed.

Lemma start_video_stream_quiet env : emits not_publish (start_video_stream env).
Proof.
  pose proof stop_video_stream_quiet.
  unfold start_video_stream, start_cleanup, _setup_frame_monitoring. closure.
Qed.

Lemma start_video_stream_keeps_client env : keeps client (start_video_stream env).
Proof.
  pose proof stop_video_stream_keeps_client.
  unfold start_video_stream, start_cleanup, _setup_frame_monitoring. closure.
Qed.

(** A computation that never raises and keeps the service as it is. *)
Lemma run_total_pure {A} (m : M A) s :
  total m -> keeps id m -> exists a, m s = (trace_of (m s), s, Ret a).
Proof.
  intros Ht Hk. destruct (Ht s) as [a Ha]. specialize (Hk s).
  destruct (m s) as [[t s'] r]. unfold state_of, result_of, trace_of, id in *.
  simpl in *. subst. by exists a.
Qed.

(** The stop sequence on a service that holds a handle: the field is
    cleared, then comes the teardown, which assigns nothing, publishes
    nothing and does not raise. *)
Lemma stop_video_stream_run s h :
  video_stream s = Some h ->
  exists tr,
    stop_video_stream s
    = (Assign_video_stream None :: tr, set_video_stream None s, Ret tt) /\
    Forall not_assign tr /\ Forall not_publish tr.
Proof.
  intros Hv. unfold stop_video_stream.
  rewrite run_bind. unfold gets at 1. rewrite Hv. cbv zeta.
  match goal with
  | |- context [ (assign_video_stream None ≫= ?k) s ] =>
      pose (teardown := k tt);
      change ((assign_video_stream None ≫= k) s)
        with ((assign_video_stream None ≫= fun _ => teardown) s)
  end.
  rewrite run_bind.
  assert (Ha : emits not_assign teardown) by (subst teardown; closure).
  assert (Hp : emits not_publish teardown) by (subst teardown; closure).
  assert (Ht : total teardown) by (subst teardown; closure).
  assert (Hk : keeps id teardown) by (subst teardown; closure).
  destruct (run_total_pure teardown (set_video_stream None s) Ht Hk) as [[] E].
  specialize (Ha (set_video_stream None s)).
  specialize (Hp (set_video_stream None s)).
  cbv [assign_video_stream mbind M_bind emit modify]. simpl.
  rewrite E in *. simpl. eauto.
Qed.

(** C6.  The stop sequence never raises and leaves [video_stream] at
    [None].  Every call it makes is made while [video_stream] is [None]:
    when the service holds a handle, the first event of the sequence is
    the assignment [self.video_stream = None], and no later event assigns
    the field, whichever teardown step fails.  The assignments of the trace
    account for the field at the end. *)
Theorem stop_clears_handle_first s :
  let run := stop_video_stream s in
  result_of run = Ret tt /\
  video_stream (state_of run) = None /\
  Forall (fun cv => cv.2 = None)
    (calls_seeing (hid <$> video_stream s) (trace_of run)) /\
  match video_stream s with
  | Some _ =>
      exists tr, trace_of run = Assign_video_stream None :: tr /\ Forall not_assign tr
  | None => trace_of run = []
  end /\
  field_after (hid <$> video_stream s) (trace_of run)
  = hid <$> video_stream (state_of run).
Proof.
  destruct (video_stream s) as [h|] eqn:Hv.
  - destruct (stop_video_stream_run s h Hv) as (tr & E & Ha & _).
    cbv zeta. rewrite E. unfold result_of, state_of, trace_of. simpl.
    repeat split; [by apply calls_seeing_const | eauto |].
    by apply field_after_const.
  - cbv zeta. unfold stop_video_stream. rewrite run_bind. unfold gets. rewrite Hv.
    unfold result_of, state_of, trace_of. simpl. rewrite Hv.
    repeat split; first [done | constructor].
Qed.

(** ** The stop sequence and the forced release *)

(** Runs the stop sequence on a handle whose answers are all known. *)
Ltac run_stop :=
  cbv [stop_video_stream assign_video_stream check with_lock try_except
       try_finally when mbind M_bind mret M_ret gets emit log raise modify
       invoke trace_of state_of result_of fst snd calls];
  simpl.

(** C5, as the code has it.  The forced [release()] of the streamer is
    called exactly when reading the handle's [pc] attribute raises and the
    streamer is there with a [release] method; [stop()] is then not called
    at all.  When [stop()] is called and raises, the error is logged and
    no [release()] follows. *)
Theorem release_only_after_escaped_error s h :
  video_stream s = Some h ->
  let tr := trace_of (stop_video_stream s) in
  (streamer_release (hid h) ∈ calls tr <->
     pc_probe h = PRaises /\ streamer_probe h = PTrue /\
     streamer_has_release h = true) /\
  (streamer_release (hid h) ∈ calls tr -> stream_stop (hid h) ∉ calls tr) /\
  (Call (stream_stop (hid h)) Raises ∈ tr ->
     Log ERROR "Error stopping stream" ∈ tr /\
     streamer_release (hid h) ∉ calls tr).
Proof.
  intros Hv.
  destruct h as [n st sp pp pc po gs ls stp sc fc hr rr].
  run_stop. rewrite Hv. simpl. clear Hv.
  repeat match goal with
         | |- context [match ?x with _ => _ end] => is_var x; destruct x; simpl
         end;
    set_unfold; intuition (discriminate || eauto).
Qed.

(** C5, as the spec has it, fails: on a handle whose [stop()] raises and
    whose other operations return, the stop sequence ends with the logged
    error and never calls [release()]. *)
Lemma stop_failure_without_release :
  let s := Scenario.streaming Scenario.stop_fails in
  trace_of (stop_video_stream s)
  = [Assign_video_stream None;
     Call (pc_close 3) Returns; Call asyncio_sleep Returns;
     Call (streamer_close 3) Returns;
     Call (stream_stop 3) Raises; Log ERROR "Error stopping stream"] /\
  Call (stream_stop 3) Raises ∈ trace_of (stop_video_stream s) /\
  streamer_release 3 ∉ calls (trace_of (stop_video_stream s)).
Proof.
  vm_compute. split; [reflexivity|]. split; set_unfold; intuition discriminate.
Qed.

Lemma release_only_after_escaped_error_witness :
  let s := Scenario.streaming Scenario.stop_fails in
  Log ERROR "Error stopping stream" ∈ trace_of (stop_video_stream s) /\
  streamer_release 3 ∉ calls (trace_of (stop_video_stream s)).
Proof.
  apply (release_only_after_escaped_error
           (Scenario.streaming Scenario.stop_fails) Scenario.stop_fails).
  - reflexivity.
  - vm_compute. repeat constructor.
Defined.

(** ** The start sequence *)

(** Unfolds the start sequence down to the calls of [stop_video_stream]
    and [_setup_frame_monitoring]. *)
Ltac run_start :=
  cbv [start_video_stream start_cleanup assign_video_stream try_except when
       mbind M_bind mret M_ret gets emit log raise modify invoke
       invoke_returning];
  simpl.

(** Replaces a run of [_setup_frame_monitoring] by its outcome: a trace,
    the service as it was and no exception. *)
Ltac run_monitoring :=
  match goal with
  | |- context [_setup_frame_monitoring ?h ?st] =>
      let E := fresh "E" in
      destruct (run_total_pure (_setup_frame_monitoring h) st
                  (setup_frame_monitoring_total h)
                  (setup_frame_monitoring_pure h)) as [[] E];
      rewrite E; clear E
  end.

(** After the start sequence on a connected service: when it returns, the
    service holds the handle that [client.video_stream] handed out and
    whose [start()] returned; when it raises, the service holds none. *)
Lemma start_video_stream_post env s c :
  client s = Some c ->
  let run := start_video_stream env s in
  match result_of run with
  | Ret _ =>
      exists h, video_stream_result env = Some h /\ start_result h = Returns /\
                video_stream (state_of run) = Some h
  | Raise _ => video_stream (state_of run) = None
  end.
Proof.
  intros Hc. cbv zeta. run_start. rewrite Hc.
  destruct (video_stream s) as [stale|] eqn:Hv.
  - destruct (stop_video_stream_run s stale Hv) as (tr & E & _). rewrite E. simpl.
    destruct (TimeReference_result env); simpl; [|done].
    destruct (video_stream_result env) as [new|]; simpl; [|done].
    destruct (start_result new) eqn:Hs; simpl.
    + run_monitoring. simpl. eauto.
    + by destruct (stop_result new).
  - simpl.
    destruct (TimeReference_result env); simpl; [|done].
    destruct (video_stream_result env) as [new|]; simpl; [|done].
    destruct (start_result new) eqn:Hs; simpl.
    + run_monitoring. simpl. eauto.
    + by destruct (stop_result new).
Qed.

(** ** The command handlers *)

(** Unfolds the combinators, leaving the stream sequences folded. *)
Ltac exec :=
  cbv [run_handler _handle_start_video_command _handle_stop_video_command
       on_command_message with_lock try_except try_finally publish when
       mbind M_bind mret M_ret gets emit log raise modify invoke
       trace_of state_of result_of fst snd];
  simpl.

(** A handler that finds no client only logs. *)
Lemma handler_without_client env s hd :
  client s = None ->
  run_handler env hd s = ([Log ERROR "Client not available"], s, Ret tt).
Proof. intros Hc. destruct hd; exec; by rewrite Hc. Qed.

(** ** One acknowledgment per command *)

(** The callback itself publishes nothing, whatever the message. *)
Lemma on_command_message_quiet env data :
  emits not_publish (on_command_message env data).
Proof.
  unfold on_command_message. closure.
Qed.

(** C1.  On a service with a client whose publish calls return, each
    handler returns and publishes exactly one acknowledgment.  For
    [StartVideo] it is "ok" with a stream held afterwards, or "error" with
    none held; the stop sequence raises nothing, so for [StopVideo] it is
    "ok", and no stream is held afterwards.  The callback publishes
    nothing for any message, and for a message without a recognized
    command it makes no call at all: no handler is scheduled. *)
Theorem one_ack_per_command env s c :
  client s = Some c ->
  (forall msg, publish_result env msg = Returns) ->
  (let run := run_handler env StartVideo s in
   result_of run = Ret tt /\
   attempted (trace_of run) = published (trace_of run) /\
   (published (trace_of run) = ["ok"] /\ is_Some (video_stream (state_of run)) \/
    published (trace_of run) = ["error"] /\ video_stream (state_of run) = None)) /\
  (let run := run_handler env StopVideo s in
   result_of run = Ret tt /\
   attempted (trace_of run) = published (trace_of run) /\
   published (trace_of run) = ["ok"] /\
   video_stream (state_of run) = None) /\
  (forall data,
     let run := on_command_message env data s in
     attempted (trace_of run) = [] /\
     (recognized (command_type_of data) = false ->
      calls (trace_of run) = [] /\ state_of run = s)).
Proof.
  intros Hc Hp. split; [|split].
  - (* StartVideo *)
    exec. rewrite Hc. simpl.
    destruct (video_stream s) as [h|] eqn:Hv; simpl.
    + rewrite (Hp "ok"). simpl. rewrite Hv. eauto 6.
    + pose proof (start_video_stream_quiet env s) as Hq.
      pose proof (start_video_stream_keeps_client env s) as Hk.
      pose proof (start_video_stream_post env s c Hc) as Hpost.
      cbv zeta in Hpost.
      destruct (start_video_stream env s) as [[t1 s1] r1].
      unfold trace_of, state_of, result_of in *. simpl in *.
      destruct r1 as [[]|e]; simpl.
      * rewrite (Hp "ok"). simpl.
        rewrite !attempted_app, !published_app.
        rewrite (attempted_quiet t1 Hq), (published_quiet t1 Hq). simpl.
        destruct Hpost as (h & _ & _ & ->). eauto 6.
      * rewrite Hk, Hc. simpl. rewrite (Hp "error"). simpl.
        rewrite !attempted_app, !published_app.
        rewrite (attempted_quiet t1 Hq), (published_quiet t1 Hq). simpl.
        eauto 6.
  - (* StopVideo *)
    exec. rewrite Hc. simpl.
    destruct (video_stream s) as [h|] eqn:Hv; simpl.
    + destruct (stop_video_stream_run s h Hv) as (tr & E & _ & Hq). rewrite E.
      simpl. rewrite (Hp "ok"). simpl.
      rewrite !attempted_app, !published_app.
      rewrite (attempted_quiet tr Hq), (published_quiet tr Hq). done.
    + rewrite (Hp "ok"). simpl. by rewrite Hv.
  - (* the callback *)
    intros data. cbv zeta. split.
    + apply attempted_quiet, on_command_message_quiet.
    + intros Hr. apply orb_false_iff in Hr as [H1 H2].
      exec.
      destruct (bool_decide (is_Some (payload_of data !! "status"))); simpl; [done|].
      destruct (Py.truthy (command_type_of data)); simpl; [|done].
      destruct (event_loop s); simpl; [|done].
      by rewrite H1, H2.
Qed.

Lemma one_ack_per_command_witness :
  let run := run_handler Scenario.env0 StartVideo Scenario.s0 in
  result_of run = Ret tt /\
  attempted (trace_of run) = published (trace_of run) /\
  (published (trace_of run) = ["ok"] /\ is_Some (video_stream (state_of run)) \/
   published (trace_of run) = ["error"] /\ video_stream (state_of run) = None).
Proof.
  exact (proj1 (one_ack_per_command Scenario.env0 Scenario.s0 Scenario.sdk
                  eq_refl (fun _ => eq_refl))).
Defined.

(** When the publication of "ok" itself raises, the handler goes on to
    publish "error": the hypothesis of C1 on the publish calls is what
    makes the acknowledgment unique. *)
Example failed_publication_of_ok :
  let env :=
    {| Cyberwave_result := Some Scenario.sdk;
       mqtt_connect_result := Returns;
       subscribe_result := Returns;
       mqtt_disconnect_result := Returns;
       client_disconnect_result := Returns;
       publish_result := fun msg => if String.eqb msg "ok" then Raises else Returns;
       schedule_result := Returns;
       TimeReference_result := Returns;
       video_stream_result := Some Scenario.healthy;
       signal_after := 0 |} in
  let run := run_handler env StopVideo Scenario.s0 in
  attempted (trace_of run) = ["ok"; "error"] /\
  published (trace_of run) = ["error"] /\
  result_of run = Ret tt.
Proof. vm_compute. repeat split. Qed.

(** ** A failing [start()] *)

(** C2.  The service is connected and holds no stream, so that the handler
    runs the start sequence; [client.video_stream] hands out [h] and
    [h.start()] raises.  Then the handler stops [h], leaves [video_stream]
    at [None] and makes one publish call, for "error".  The exception of
    [start()] does not leave the handler: the handler returns when that
    publish call returns, and otherwise raises what the publish call
    raised. *)
Theorem failed_start_is_contained env s c h :
  client s = Some c ->
  video_stream s = None ->
  TimeReference_result env = Returns ->
  video_stream_result env = Some h ->
  start_result h = Raises ->
  let run := _handle_start_video_command env s in
  let error := publish_command_message (twin_uuid (config s)) "error" in
  Call (stream_start (hid h)) Raises ∈ trace_of run /\
  Call (stream_stop (hid h)) (stop_result h) ∈ trace_of run /\
  video_stream (state_of run) = None /\
  attempted (trace_of run) = ["error"] /\
  result_of run
  = match publish_result env "error" with
    | Returns => Ret tt
    | Raises => Raise (Raised_by error)
    end /\
  (publish_result env "error" = Returns ->
   published (trace_of run) = ["error"] /\ result_of run = Ret tt).
Proof.
  intros Hc Hv Ht Hn Hs. exec. rewrite Hc. simpl. rewrite Hv. simpl.
  run_start. rewrite Hc, Hv, Ht, Hn. simpl. rewrite Hs. simpl.
  destruct (stop_result h); simpl; rewrite Hc; simpl;
    destruct (publish_result env "error"); simpl;
    repeat split; try done; set_unfold; tauto.
Qed.

Lemma failed_start_is_contained_witness :
  let run :=
    _handle_start_video_command (Scenario.env_with Scenario.start_fails)
      Scenario.s0 in
  Call (stream_start 2) Raises ∈ trace_of run /\
  Call (stream_stop 2) Returns ∈ trace_of run /\
  video_stream (state_of run) = None /\
  attempted (trace_of run) = ["error"] /\
  result_of run = Ret tt /\
  (Returns = Returns -> published (trace_of run) = ["error"] /\ result_of run = Ret tt).
Proof.
  exact (failed_start_is_contained (Scenario.env_with Scenario.start_fails)
           Scenario.s0 Scenario.sdk Scenario.start_fails
           eq_refl eq_refl eq_refl eq_refl eq_refl).
Defined.

(** ** Commands that find nothing to do *)

(** C3.  On a connected service that already holds a stream, the
    [StartVideo] handler leaves the service as it is, its first call is
    the publication of "ok", and none of its calls constructs, starts or
    tears down a handle.  When that publication returns, the run is
    exactly: take the lock, publish "ok", release the lock. *)
Theorem start_when_running_is_noop env s c h :
  client s = Some c ->
  video_stream s = Some h ->
  let run := _handle_start_video_command env s in
  let ok := publish_command_message (twin_uuid (config s)) "ok" in
  state_of run = s /\
  (exists rest, trace_of run = Acquire :: Call ok (publish_result env "ok") :: rest) /\
  Forall (fun c => is_creation c = false /\ is_teardown c = false)
    (calls (trace_of run)) /\
  (publish_result env "ok" = Returns ->
   run = ([Acquire; Call ok Returns; Release], s, Ret tt)).
Proof.
  intros Hc Hv. exec. rewrite Hc; simpl. rewrite Hv; simpl. rewrite Hc; simpl.
  destruct (publish_result env "ok"), (publish_result env "error"); simpl;
    (split; [done|]); (split; [by eexists|]); (split; [|done]);
    repeat constructor.
Qed.

Lemma start_when_running_is_noop_witness :
  let s := Scenario.streaming Scenario.healthy in
  _handle_start_video_command Scenario.env0 s
  = ([Acquire; Call (publish_command_message (Some "twin-1") "ok") Returns;
      Release], s, Ret tt).
Proof.
  destruct (start_when_running_is_noop Scenario.env0
              (Scenario.streaming Scenario.healthy) Scenario.sdk
              Scenario.healthy eq_refl eq_refl) as (_ & _ & _ & H).
  exact (H eq_refl).
Defined.

(** C4.  On a connected service that holds no stream, the [StopVideo]
    handler leaves the service as it is, its first call is the
    publication of "ok", and none of its calls is a teardown call (or
    creates a handle).  When that publication returns, the run is exactly:
    take the lock, publish "ok", release the lock. *)
Theorem stop_when_absent_is_noop env s c :
  client s = Some c ->
  video_stream s = None ->
  let run := _handle_stop_video_command env s in
  let ok := publish_command_message (twin_uuid (config s)) "ok" in
  state_of run = s /\
  (exists rest, trace_of run = Acquire :: Call ok (publish_result env "ok") :: rest) /\
  Forall (fun c => is_creation c = false /\ is_teardown c = false)
    (calls (trace_of run)) /\
  (publish_result env "ok" = Returns ->
   run = ([Acquire; Call ok Returns; Release], s, Ret tt)).
Proof.
  intros Hc Hv. exec. rewrite Hc; simpl. rewrite Hv; simpl. rewrite Hc; simpl.
  destruct (publish_result env "ok"), (publish_result env "error"); simpl;
    (split; [done|]); (split; [by eexists|]); (split; [|done]);
    repeat constructor.
Qed.

Lemma stop_when_absent_is_noop_witness :
  _handle_stop_video_command Scenario.env0 Scenario.s0
  = ([Acquire; Call (publish_command_message (Some "twin-1") "ok") Returns;
      Release], Scenario.s0, Ret tt).
Proof.
  destruct (stop_when_absent_is_noop Scenario.env0 Scenario.s0 Scenario.sdk
              eq_refl eq_refl) as (_ & _ & _ & H).
  exact (H eq_refl).
Defined.

(** C10.  When [self.client] is [None], either handler logs an error and
    returns: the lock is not taken, nothing is published and the service,
    its [video_stream] included, is unchanged. *)
Theorem no_client_no_ack env s hd :
  client s = None ->
  run_handler env hd s = ([Log ERROR "Client not available"], s, Ret tt).
Proof. apply handler_without_client. Qed.

Lemma no_client_no_ack_witness :
  run_handler Scenario.env0 StartVideo Scenario.fresh
  = ([Log ERROR "Client not available"], Scenario.fresh, Ret tt).
Proof. apply no_client_no_ack. reflexivity. Defined.

(** ** The command callback *)

(** C7.  A message whose payload has a [status] key: the callback returns
    with an empty trace (nothing published, nothing scheduled, nothing
    logged) and the service unchanged. *)
Theorem status_echo_ignored env s data v :
  payload_of data !! "status" = Some v ->
  on_command_message env data s = ([], s, Ret tt).
Proof. intros H. exec. by rewrite H. Qed.

Lemma status_echo_ignored_witness :
  on_command_message Scenario.env0 (Py.VDict {[ "status" := Py.VStr "ok" ]})
    Scenario.s0
  = ([], Scenario.s0, Ret tt).
Proof. apply (status_echo_ignored _ _ _ (Py.VStr "ok")). reflexivity. Defined.

(** C8, as the code has it.  The payload has no [status] key, and its
    [command] is missing or is not one of the two commands.  When the
    command is truthy the event loop is set, as it is from [run] on.  Then
    the whole trace of the callback is one warning, and the service is
    unchanged: nothing is published and no handler is scheduled. *)
Theorem unknown_command_warns env s data :
  payload_of data !! "status" = None ->
  recognized (command_type_of data) = false ->
  (Py.truthy (command_type_of data) = true -> event_loop s = true) ->
  let run := on_command_message env data s in
  (exists msg, trace_of run = [Log WARNING msg]) /\
  state_of run = s /\
  result_of run = Ret tt.
Proof.
  intros Hs Hr Hl. exec. rewrite Hs; simpl.
  apply orb_false_iff in Hr as [H1 H2].
  destruct (Py.truthy (command_type_of data)); simpl.
  - rewrite Hl by done. simpl. rewrite H1, H2. simpl. eauto.
  - eauto.
Qed.

Lemma unknown_command_warns_witness :
  let run :=
    on_command_message Scenario.env0
      (Py.VDict {[ "command" := Py.VStr "reboot" ]}) Scenario.s0 in
  (exists msg, trace_of run = [Log WARNING msg]) /\
  state_of run = Scenario.s0 /\
  result_of run = Ret tt.
Proof.
  apply (unknown_command_warns Scenario.env0 Scenario.s0
           (Py.VDict {[ "command" := Py.VStr "reboot" ]})).
  - reflexivity.
  - reflexivity.
  - intros _. reflexivity.
Defined.

(** C8, as the spec has it, fails: the payload [{"status": "ok"}] lacks
    a [command] field, and the callback logs nothing for it. *)
Lemma status_echo_without_command :
  let data := Py.VDict {[ "status" := Py.VStr "ok" ]} in
  payload_of data !! "command" = None /\
  on_command_message Scenario.env0 data Scenario.s0 = ([], Scenario.s0, Ret tt) /\
  warnings (trace_of (on_command_message Scenario.env0 data Scenario.s0)) = [].
Proof. repeat split. Qed.

(** Before [run] has set the event loop, a truthy command is answered by
    an error record, not by a warning. *)
Example command_without_event_loop :
  on_command_message Scenario.env0
    (Py.VDict {[ "command" := Py.VStr "reboot" ]}) Scenario.fresh
  = ([Log ERROR "Event loop not available, cannot process command"],
     Scenario.fresh, Ret tt).
Proof. reflexivity. Qed.

(** ** Histories *)

Lemma handlers_keep_client env hd : keeps client (run_handler env hd).
Proof.
  pose proof stop_video_stream_keeps_client.
  pose proof (start_video_stream_keeps_client env).
  destruct hd; simpl;
    unfold _handle_start_video_command, _handle_stop_video_command, publish;
    closure.
Qed.

Lemma callback_keeps_service env data : keeps id (on_command_message env data).
Proof. unfold on_command_message. closure. Qed.

Lemma connect_keeps_stream env : keeps video_stream (connect env).
Proof. unfold connect, _subscribe_to_commands. closure. Qed.

Lemma connect_client env s :
  client (state_of (connect env s)) = client s \/
  is_Some (client (state_of (connect env s))).
Proof.
  cbv [connect _subscribe_to_commands invoke_returning when mbind M_bind mret
       M_ret gets log emit modify invoke state_of].
  destruct (Cyberwave_result env) as [c|]; simpl; [right | by left].
  destruct (mqtt_connected c); simpl.
  - destruct (Py.str_falsy _); simpl; [by eexists|].
    destruct (subscribe_result env); by eexists.
  - destruct (mqtt_connect_result env); simpl; [|by eexists].
    destruct (Py.str_falsy _); simpl; [by eexists|].
    destruct (subscribe_result env); by eexists.
Qed.

Lemma shutdown_clears_stream env s :
  video_stream (state_of (shutdown env s)) = None.
Proof.
  cbv [shutdown when try_except mbind M_bind mret M_ret gets log emit modify
       invoke state_of].
  simpl.
  destruct (video_stream s) as [h|] eqn:Hv; simpl.
  - destruct (stop_video_stream_run (set_running false s) h Hv) as (tr & E & _).
    rewrite E. simpl.
    destruct (client s) as [cl|]; simpl; [|done].
    destruct (mqtt_disconnect_result env), (has_disconnect cl),
      (client_disconnect_result env); done.
  - destruct (client s) as [cl|]; simpl; [|done].
    destruct (mqtt_disconnect_result env), (has_disconnect cl),
      (client_disconnect_result env); done.
Qed.

Lemma perform_coherent env a s :
  coherent s -> coherent (state_of (perform env a s)).
Proof.
  intros Hs. destruct a as [|data|hd|]; simpl.
  - intros Hv. rewrite connect_keeps_stream in Hv.
    destruct (connect_client env s) as [->|]; auto.
  - pose proof (callback_keeps_service env data s) as E. unfold id in E.
    by rewrite E.
  - intros Hv. rewrite handlers_keep_client.
    destruct (client s) as [c|] eqn:Hc; [by eexists|].
    rewrite (handler_without_client env s hd Hc) in Hv. rewrite <- Hc.
    exact (Hs Hv).
  - intros Hv. rewrite shutdown_clears_stream in Hv. by destruct Hv.
Qed.

(** Along a history a service that holds a stream has a client: from
    [EdgeService(config)] on, the hypothesis of C3 on the client holds
    wherever its hypothesis on the stream does. *)
Lemma history_coherent steps :
  forall s, coherent s -> coherent (history steps s).2.
Proof.
  induction steps as [|[env a] rest IH]; intros s Hs; [exact Hs|].
  simpl. specialize (IH _ (perform_coherent env a s Hs)).
  by destruct (history rest _).
Qed.

Lemma fresh_coherent cfg : coherent (EdgeService_new cfg).
Proof. intros [h Hh]. discriminate. Qed.

Corollary service_coherent cfg steps :
  coherent (history steps (EdgeService_new cfg)).2.
Proof. apply history_coherent, fresh_coherent. Qed.

(** The scenario of the spec: start, start again, stop, stop again. *)
Example start_start_stop_stop :
  let steps := [(Scenario.env0, Handle StartVideo);
                (Scenario.env0, Handle StartVideo);
                (Scenario.env0, Handle StopVideo);
                (Scenario.env0, Handle StopVideo)] in
  published (history steps Scenario.s0).1 = ["ok"; "ok"; "ok"; "ok"] /\
  (history steps Scenario.s0).2 = Scenario.s0 /\
  (history (take 1 steps) Scenario.s0).2 = Scenario.streaming Scenario.healthy /\
  (history (take 2 steps) Scenario.s0).2 = Scenario.streaming Scenario.healthy /\
  length (filter (fun c => bool_decide (c = stream_start 1))
            (calls (history steps Scenario.s0).1)) = 1%nat.
Proof. vm_compute. repeat split. Qed.

(** ** Start-up *)

Section Startup.

Variable py_int : string -> option Z.
Variable py_strip : string -> string.
Variable set_level_result : string -> outcome.

(** Validation fails on a configuration without token or without twin
    identifier. *)
Lemma validate_rejects cfg :
  Py.str_falsy (cyberwave_token cfg) = true \/
  Py.str_falsy (twin_uuid cfg) = true ->
  (validate cfg).2 = false.
Proof.
  intros [H|H]; unfold validate.
  - by rewrite H.
  - rewrite H. by destruct (Py.str_falsy (cyberwave_token cfg)).
Qed.

(** The two required fields are read from the environment as they are. *)
Lemma EdgeConfig_new_required environ log cfg :
  EdgeConfig_new py_int environ = (log, Ret cfg) ->
  cyberwave_token cfg = environ !! "CYBERWAVE_TOKEN" /\
  twin_uuid cfg = environ !! "CYBERWAVE_TWIN_UUID".
Proof.
  unfold EdgeConfig_new. intros H.
  destruct (getenv_int py_int environ "CYBERWAVE_MQTT_PORT" _); [|done].
  destruct (getenv_int py_int environ "CAMERA_ID" _); [|done].
  destruct (getenv_int py_int environ "CAMERA_FPS" _); [|done].
  injection H as _ <-. simpl. unfold getenv_opt.
  split; by destruct (environ !! _).
Qed.

(** The environment [load_config] hands to [EdgeConfig()] differs from
    the merged one at most in [ENVIRONMENT]. *)
Lemma load_config_environ environ dotenv key :
  key <> "ENVIRONMENT" ->
  (load_config py_int py_strip environ dotenv).1.1 !! key
  = load_dotenv environ dotenv !! key.
Proof.
  intros Hk. unfold load_config.
  destruct (String.eqb _ ""); simpl.
  - destruct (EdgeConfig_new _ _) as [log3 [cfg|e]]; simpl.
    + destruct (validate cfg) as [log4 []]; simpl; by rewrite lookup_insert_ne.
    + by rewrite lookup_insert_ne.
  - destruct (EdgeConfig_new _ _) as [log3 [cfg|e]]; simpl; [|done].
    by destruct (validate cfg) as [log4 []].
Qed.

(** [load_config] returns the configuration [EdgeConfig()] builds when
    it is valid, and raises otherwise. *)
Lemma load_config_result environ dotenv :
  (load_config py_int py_strip environ dotenv).2
  = match EdgeConfig_new py_int
            (load_config py_int py_strip environ dotenv).1.1 with
    | (_, Raise e) => Raise e
    | (_, Ret cfg) =>
        if (validate cfg).2 then Ret cfg
        else Raise (ValueError "Invalid configuration. Please check your .env file or environment variables.")
    end.
Proof.
  unfold load_config.
  destruct (String.eqb _ ""); simpl.
  - destruct (EdgeConfig_new py_int (<[_:=_]> _)) as [log3 [cfg|e]] eqn:Hnew;
      simpl.
    + destruct (validate cfg) as [log4 []] eqn:Hv; simpl; by rewrite Hnew, Hv.
    + by rewrite Hnew.
  - destruct (EdgeConfig_new py_int (load_dotenv _ _)) as [log3 [cfg|e]] eqn:Hnew;
      simpl.
    + destruct (validate cfg) as [log4 []] eqn:Hv; simpl; by rewrite Hnew, Hv.
    + by rewrite Hnew.
Qed.

(** [load_config] makes no call into a collaborator of the service. *)
Lemma load_config_logs environ dotenv :
  Forall not_call (load_config py_int py_strip environ dotenv).1.2.
Proof.
  assert (Hnew : forall e, Forall not_call (EdgeConfig_new py_int e).1).
  { intros e. unfold EdgeConfig_new.
    repeat (destruct (getenv_int _ _ _ _); simpl; [|constructor]).
    by repeat constructor. }
  assert (Hval : forall cfg, Forall not_call (validate cfg).1).
  { intros cfg. unfold validate.
    repeat (destruct (Py.str_falsy _); [by repeat constructor|]).
    constructor. }
  unfold load_config.
  set (l1 := match dotenv with Some _ => _ | None => _ end).
  assert (H1 : Forall not_call l1) by (destruct dotenv; by repeat constructor).
  destruct (String.eqb _ ""); simpl.
  - specialize (Hnew (<["ENVIRONMENT":="production"]> (load_dotenv environ dotenv))).
    destruct (EdgeConfig_new _ _) as [log3 [cfg|e]]; simpl in *.
    + specialize (Hval cfg).
      destruct (validate cfg) as [log4 []]; simpl in *;
        repeat (rewrite Forall_app || rewrite Forall_cons);
        repeat split; try done; by repeat constructor.
    + repeat (rewrite Forall_app || rewrite Forall_cons).
      repeat split; try done; by repeat constructor.
  - specialize (Hnew (load_dotenv environ dotenv)).
    assert (H2 : Forall not_call
              [Log WARNING ".env file not found, using environment variables only"])
      by by repeat constructor.
    destruct (EdgeConfig_new _ _) as [log3 [cfg|e]]; simpl in *.
    + specialize (Hval cfg).
      destruct (validate cfg) as [log4 []]; simpl in *;
        repeat (rewrite Forall_app || rewrite Forall_cons);
        repeat split; try done; by repeat constructor.
    + repeat (rewrite Forall_app || rewrite Forall_cons).
      repeat split; try done; by repeat constructor.
Qed.

(** C9.  Let the token or the twin identifier be absent (unset, or set
    to the empty string) from the environment merged with the [.env]
    file.  Then validation fails on the configuration [load_config]
    builds, [load_config] raises, and [async_main] ends in
    [sys.exit(1)] having made no call into the SDK: no backend or
    channel connection is attempted. *)
Theorem missing_credentials_fail_fast env environ dotenv :
  let effective := load_dotenv environ dotenv in
  Py.str_falsy (effective !! "CYBERWAVE_TOKEN") = true \/
  Py.str_falsy (effective !! "CYBERWAVE_TWIN_UUID") = true ->
  let loaded := load_config py_int py_strip environ dotenv in
  let main := async_main py_int py_strip set_level_result env environ dotenv in
  (forall log cfg,
     EdgeConfig_new py_int loaded.1.1 = (log, Ret cfg) ->
     (validate cfg).2 = false) /\
  (exists e, loaded.2 = Raise e) /\
  main.2 = SystemExit 1 /\
  exit_status main.2 <> 0 /\
  calls main.1 = [].
Proof.
  intros effective Habsent loaded main.
  assert (Hval : forall log cfg,
             EdgeConfig_new py_int loaded.1.1 = (log, Ret cfg) ->
             (validate cfg).2 = false).
  { intros log cfg Hnew. apply validate_rejects.
    destruct (EdgeConfig_new_required _ _ _ Hnew) as [-> ->].
    subst loaded. by rewrite !load_config_environ. }
  assert (Hraise : exists e, loaded.2 = Raise e).
  { subst loaded. rewrite load_config_result.
    destruct (EdgeConfig_new py_int _) as [log [cfg|e]] eqn:Hnew; [|by eexists].
    rewrite (Hval log cfg eq_refl). by eexists. }
  split; [exact Hval|]. split; [exact Hraise|].
  destruct Hraise as [e He].
  pose proof (load_config_logs environ dotenv) as Hlogs.
  subst main. unfold async_main. fold loaded in Hlogs |- *.
  destruct loaded as [[environ' t1] r]. simpl in He, Hlogs. subst r. simpl.
  repeat split; [done|].
  apply calls_quiet. repeat constructor.
  apply Forall_app. split; [exact Hlogs | by repeat constructor].
Qed.

End Startup.

Lemma missing_credentials_fail_fast_witness :
  let main :=
    async_main Scenario.py_int0 Scenario.py_strip0 Scenario.set_level0
      Scenario.env0 {[ "CYBERWAVE_TOKEN" := "token" ]} None in
  main.2 = SystemExit 1 /\ calls main.1 = [].
Proof.
  destruct (missing_credentials_fail_fast Scenario.py_int0 Scenario.py_strip0
              Scenario.set_level0 Scenario.env0
              {[ "CYBERWAVE_TOKEN" := "token" ]} None)
    as (_ & _ & H1 & _ & H2).
  - right. reflexivity.
  - split; assumption.
Defined.

(** * More of the service *)

(** ** The start sequence, case by case *)

(** Without a client the start sequence logs, raises [RuntimeError] and
    touches nothing: it makes no call and leaves the service, a stale
    handle included, as it is. *)
Theorem start_without_client env s :
  client s = None ->
  start_video_stream env s
  = ([Log ERROR "Client not connected"], s,
     Raise (RuntimeError "Client not connected")).
Proof. intros Hc. run_start. by rewrite Hc. Qed.

Lemma start_without_client_witness :
  start_video_stream Scenario.env0 Scenario.fresh
  = ([Log ERROR "Client not connected"], Scenario.fresh,
     Raise (RuntimeError "Client not connected")).
Proof. apply start_without_client. reflexivity. Defined.

(** On a connected service the start sequence returns exactly when
    [TimeReference()], [client.video_stream(...)] and [start()] return:
    neither the teardown of a stale handle nor the set-up of the monitoring
    can make it fail.  When it returns the service holds the new handle;
    when it raises the service holds none. *)
Theorem start_sequence_outcome env s c :
  client s = Some c ->
  let run := start_video_stream env s in
  (result_of run = Ret tt <->
   TimeReference_result env = Returns /\
   exists h, video_stream_result env = Some h /\ start_result h = Returns) /\
  match result_of run with
  | Ret _ => video_stream (state_of run) = video_stream_result env
  | Raise _ => video_stream (state_of run) = None
  end.
Proof.
  intros Hc. cbv zeta. run_start. rewrite Hc.
  destruct (video_stream s) as [stale|] eqn:Hv;
    [destruct (stop_video_stream_run s stale Hv) as (tr & E & _); rewrite E|];
    simpl.
  all: destruct (TimeReference_result env); simpl;
    [|split; [split; [done | by intros [? _]] | done]].
  all: destruct (video_stream_result env) as [new|]; simpl;
    [|split; [split; [done | by intros (_ & ? & ? & _)] | done]].
  all: destruct (start_result new) eqn:Hs; simpl;
    [run_monitoring; simpl; split; [split; [eauto|done] | done]|].
  all: destruct (stop_result new); simpl;
    (split; [split; [done|intros (_ & h & [= <-] & ?); congruence] | done]).
Qed.

Lemma start_sequence_outcome_witness :
  let run := start_video_stream Scenario.env0 Scenario.s0 in
  (result_of run = Ret tt <->
   Returns = Returns /\
   exists h, Some Scenario.healthy = Some h /\ start_result h = Returns) /\
  match result_of run with
  | Ret _ => video_stream (state_of run) = Some Scenario.healthy
  | Raise _ => video_stream (state_of run) = None
  end.
Proof.
  exact (start_sequence_outcome Scenario.env0 Scenario.s0 Scenario.sdk eq_refl).
Defined.

(** A stale handle is torn down first: the start sequence opens with the
    whole stop sequence, and only then is a new handle asked for. *)
Theorem stale_handle_stopped_first env s c stale :
  client s = Some c ->
  video_stream s = Some stale ->
  exists rest,
    trace_of (start_video_stream env s)
    = trace_of (stop_video_stream s)
      ++ Call TimeReference_new (TimeReference_result env) :: rest.
Proof.
  intros Hc Hv. run_start. rewrite Hc, Hv.
  destruct (stop_video_stream_run s stale Hv) as (tr & E & _). rewrite E.
  unfold trace_of. simpl.
  destruct (TimeReference_result env); simpl; [|by eexists].
  destruct (video_stream_result env) as [new|]; simpl; [|by eexists].
  destruct (start_result new); simpl.
  - run_monitoring. simpl. by eexists.
  - destruct (stop_result new); simpl; by eexists.
Qed.

Lemma stale_handle_stopped_first_witness :
  exists rest,
    trace_of (start_video_stream Scenario.env0 (Scenario.streaming Scenario.stop_fails))
    = trace_of (stop_video_stream (Scenario.streaming Scenario.stop_fails))
      ++ Call TimeReference_new Returns :: rest.
Proof.
  exact (stale_handle_stopped_first Scenario.env0
           (Scenario.streaming Scenario.stop_fails) Scenario.sdk
           Scenario.stop_fails eq_refl eq_refl).
Defined.



(** The handle is asked for with the configured twin and camera, and with
    the configured frame rate unless that is 0: then the rate is 20, not
    the default 10 of the configuration. *)
Theorem zero_fps_becomes_twenty env s c :
  client s = Some c ->
  TimeReference_result env = Returns ->
  let cfg := config s in
  Call (client_video_stream (twin_uuid cfg) (camera_id cfg)
          (if camera_fps cfg =? 0 then 20 else camera_fps cfg))
    (match video_stream_result env with Some _ => Returns | None => Raises end)
  ∈ trace_of (start_video_stream env s).
Proof.
  intros Hc Ht. cbv zeta. run_start. rewrite Hc, Ht.
  assert (Hz : forall z : Z, (if z =? 0 then 0 else z) = z)
    by (intros z; by destruct (Z.eqb_spec z 0) as [->|]).
  destruct (video_stream s) as [stale|] eqn:Hv;
    [destruct (stop_video_stream_run s stale Hv) as (tr & E & _); rewrite E|];
    unfold trace_of; simpl; rewrite Hz.
  all: destruct (video_stream_result env) as [new|]; simpl;
    [|set_solver].
  all: destruct (start_result new); simpl;
    [run_monitoring; simpl; set_solver|].
  all: destruct (stop_result new); simpl; set_solver.
Qed.

Lemma zero_fps_becomes_twenty_witness :
  let s := set_client (Some Scenario.sdk) (EdgeService_new Scenario.cfg_zero_fps) in
  Call (client_video_stream (Some "twin-1") 0 20) Returns
  ∈ trace_of (start_video_stream Scenario.env0 s).
Proof.
  exact (zero_fps_becomes_twenty Scenario.env0
           (set_client (Some Scenario.sdk) (EdgeService_new Scenario.cfg_zero_fps))
           Scenario.sdk eq_refl eq_refl).
Defined.

(** ** The monitoring set-up *)

Lemma calls_app t1 t2 : calls (t1 ++ t2) = calls t1 ++ calls t2.
Proof. apply omap_app. Qed.

(** A loop whose body only logs. *)
Lemma for_each_logging {A} (body : A -> M unit) :
  (forall x s, exists tr, body x s = (tr, s, Ret tt) /\ calls tr = []) ->
  forall ls s, exists tr, for_each ls body s = (tr, s, Ret tt) /\ calls tr = [].
Proof.
  intros Hb ls s. induction ls as [|x ls (tr & E & Hc)]; simpl; [by exists []|].
  rewrite run_bind. destruct (Hb x s) as (t1 & E1 & H1). rewrite E1, E.
  exists (t1 ++ tr). by rewrite calls_app, H1, Hc.
Qed.

(** Setting up the monitoring never raises and never changes the service,
    whatever the handle does.  The periodic task is created exactly when
    the handle has a peer connection that accepts the two callbacks and
    answers [getSenders()], and a streamer with a [frame_count]. *)
Theorem monitoring_setup_is_harmless h s :
  let run := _setup_frame_monitoring h s in
  result_of run = Ret tt /\
  state_of run = s /\
  (create_task_log_frame_count (hid h) ∈ calls (trace_of run) <->
   pc_probe h = PTrue /\ pc_on_result h = Returns /\
   getSenders_result h = Returns /\ streamer_probe h = PTrue /\
   streamer_has_frame_count h = true).
Proof.
  destruct h as [n st sp pp pc po gs ls stp sc fc hr rr].
  cbv [_setup_frame_monitoring check try_except when mbind M_bind mret M_ret
       gets emit log raise modify invoke trace_of state_of result_of].
  simpl.
  destruct pp; simpl; try (repeat split; set_unfold; intuition discriminate).
  destruct po; simpl; [|repeat split; set_unfold; intuition discriminate].
  destruct gs; simpl; [|repeat split; set_unfold; intuition discriminate].
  match goal with
  | |- context [for_each ls ?body s] =>
      destruct (for_each_logging body) with (ls := ls) (s := s) as (tr & E & Hc);
      [intros [] s'; by eexists|rewrite E]
  end.
  simpl.
  destruct stp, fc; simpl; rewrite ?calls_app, ?Hc; simpl;
    repeat split; set_unfold; intuition discriminate.
Qed.

(** ** The stop sequence, step by step *)

#[local] Hint Extern 1 (only_teardown _) => exact I : closure.
#[local] Hint Extern 1 (not_lock _) => exact I : closure.

Lemma stop_video_stream_only_teardown : emits only_teardown stop_video_stream.
Proof. unfold stop_video_stream. closure. Qed.

Lemma only_teardown_calls tr c :
  Forall only_teardown tr -> c ∈ calls tr -> is_teardown c = true \/ c = asyncio_sleep.
Proof.
  induction 1 as [|e tr He _ IH]; simpl; [by intros ?%elem_of_nil|].
  destruct e as [| c' r | | |]; try exact IH.
  intros [E|Hin]%elem_of_cons; [subst c'|by apply IH].
  destruct c; simpl in *; auto; destruct He.
Qed.

(** The teardown steps do not depend on one another.  When both guards can
    be read, the calls of the stop sequence are, in this order: [pc.close()]
    if there is a peer connection (followed by the sleep if it returned),
    [streamer.close()] if there is a streamer, and [stop()] on the handle,
    which is called whatever the two [close()] calls did. *)
Theorem teardown_steps_independent s h :
  video_stream s = Some h ->
  pc_probe h <> PRaises ->
  streamer_probe h <> PRaises ->
  calls (trace_of (stop_video_stream s))
  = match pc_probe h with
    | PTrue =>
        pc_close (hid h)
        :: match pc_close_result h with
           | Returns => [asyncio_sleep]
           | Raises => []
           end
    | _ => []
    end
    ++ match streamer_probe h with
       | PTrue => [streamer_close (hid h)]
       | _ => []
       end
    ++ [stream_stop (hid h)].
Proof.
  intros Hv Hpc Hst.
  destruct h as [n st sp pp pc po gs ls stp sc fc hr rr]. simpl in *.
  run_stop. rewrite Hv. simpl. clear Hv.
  destruct pp; try done; destruct stp; try done; simpl;
    repeat match goal with
           | |- context [match ?x with _ => _ end] => is_var x; destruct x; simpl
           end;
    reflexivity.
Qed.

Lemma teardown_steps_independent_witness :
  calls (trace_of (stop_video_stream (Scenario.streaming Scenario.stop_fails)))
  = [pc_close 3; asyncio_sleep; streamer_close 3; stream_stop 3].
Proof.
  exact (teardown_steps_independent (Scenario.streaming Scenario.stop_fails)
           Scenario.stop_fails eq_refl ltac:(discriminate) ltac:(discriminate)).
Defined.

(** The stop sequence calls nothing but the teardown operations of the
    handle it took and [asyncio.sleep]: it publishes nothing, constructs
    nothing and disconnects nothing. *)
Theorem stop_sequence_only_tears_down s c :
  c ∈ calls (trace_of (stop_video_stream s)) ->
  is_teardown c = true \/ c = asyncio_sleep.
Proof. apply only_teardown_calls, stop_video_stream_only_teardown. Qed.

Lemma stop_sequence_only_tears_down_witness :
  is_teardown (stream_stop 3) = true \/ stream_stop 3 = asyncio_sleep.
Proof.
  apply (stop_sequence_only_tears_down (Scenario.streaming Scenario.stop_fails)).
  vm_compute. repeat constructor.
Defined.

(** ** Shutdown *)

Lemma shutdown_post env s :
  let run := shutdown env s in
  result_of run = Ret tt /\
  running (state_of run) = false /\
  video_stream (state_of run) = None /\
  client (state_of run) = client s /\
  config (state_of run) = config s /\
  event_loop (state_of run) = event_loop s.
Proof.
  cbv [shutdown when try_except mbind M_bind mret M_ret gets log emit modify
       invoke state_of result_of].
  simpl.
  destruct (video_stream s) as [h|] eqn:Hv; simpl.
  - destruct (stop_video_stream_run (set_running false s) h Hv) as (tr & E & _).
    rewrite E. simpl.
    destruct (client s) as [cl|] eqn:Hc; simpl; [|by rewrite ?Hc].
    destruct (mqtt_disconnect_result env), (has_disconnect cl),
      (client_disconnect_result env); by rewrite ?Hc.
  - destruct (client s) as [cl|] eqn:Hc; simpl; [|by rewrite ?Hc, ?Hv].
    destruct (mqtt_disconnect_result env), (has_disconnect cl),
      (client_disconnect_result env); by rewrite ?Hc, ?Hv.
Qed.

(** Shutdown never raises, whatever fails on the way.  Afterwards the
    service is not running and holds no stream; its client, configuration
    and event loop are as before. *)
Theorem shutdown_never_raises env s :
  let run := shutdown env s in
  result_of run = Ret tt /\
  running (state_of run) = false /\
  video_stream (state_of run) = None /\
  client (state_of run) = client s /\
  config (state_of run) = config s /\
  event_loop (state_of run) = event_loop s.
Proof. apply shutdown_post. Qed.

(** The two disconnections do not depend on one another: with a client,
    [mqtt.disconnect()] is always called, and [client.disconnect()] is
    called whenever the client has that method, also when
    [mqtt.disconnect()] raised.  Without a client neither is called. *)
Theorem shutdown_disconnects_independently env s :
  let tr := trace_of (shutdown env s) in
  (mqtt_disconnect ∈ calls tr <-> is_Some (client s)) /\
  (client_disconnect ∈ calls tr <->
   exists cl, client s = Some cl /\ has_disconnect cl = true).
Proof.
  cbv [shutdown when try_except mbind M_bind mret M_ret gets log emit modify
       invoke trace_of].
  simpl.
  pose proof (stop_video_stream_only_teardown (set_running false s)) as Ht.
  assert (Hstop : forall t : list event,
             Forall only_teardown t ->
             (mqtt_disconnect ∉ calls t) /\ (client_disconnect ∉ calls t)).
  { intros t Hf. split; intros Hin;
      destruct (only_teardown_calls _ _ Hf Hin); discriminate. }
  destruct (bool_decide (is_Some (video_stream s))); simpl.
  - destruct (stop_video_stream (set_running false s)) as [[t st] [[]|e]] eqn:E;
      unfold trace_of in Ht; simpl in Ht; destruct (Hstop t Ht) as [H1 H2].
    + pose proof (stop_video_stream_keeps_client (set_running false s)) as Hk.
      rewrite E in Hk. unfold state_of in Hk. simpl in Hk. rewrite Hk.
      destruct (client s) as [cl|]; simpl.
      * destruct (mqtt_disconnect_result env), (has_disconnect cl) eqn:Hd,
          (client_disconnect_result env); simpl;
          rewrite ?calls_app; simpl; set_unfold;
          (split; [split; [by eexists|tauto]|]);
          (split; [intros [?|[?|?]]; try done; try discriminate; eauto
                  |intros (cl' & [= <-] & ?); try congruence; tauto]).
      * rewrite app_nil_r.
        split; [split; [done|by intros [? ?]]|split; [done|by intros (? & ? & ?)]].
    + destruct (stop_video_stream_total (set_running false s)) as [a Ha].
      rewrite E in Ha. discriminate.
  - destruct (client s) as [cl|]; simpl.
    + destruct (mqtt_disconnect_result env), (has_disconnect cl) eqn:Hd,
        (client_disconnect_result env); simpl;
        set_unfold;
        (split; [split; [by eexists|tauto]|]);
        (split; [intros [?|?]; try done; try discriminate; eauto
                |intros (cl' & [= <-] & ?); try congruence; tauto]).
    + set_unfold.
      split; [split; [done|by intros [? ?]]|split; [done|by intros (? & ? & ?)]].
Qed.

(** ** The handlers, the lock and what they can raise *)

Lemma run_with_lock {A} (m : M A) s :
  with_lock m s
  = (Acquire :: trace_of (m s) ++ [Release], state_of (m s), result_of (m s)).
Proof.
  unfold with_lock. rewrite run_bind. unfold emit at 1, try_finally, emit.
  by destruct (m s) as [[t1 s1] r1].
Qed.

Lemma stop_video_stream_no_lock : emits not_lock stop_video_stream.
Proof. unfold stop_video_stream. closure. Qed.

Lemma start_video_stream_no_lock env : emits not_lock (start_video_stream env).
Proof.
  pose proof stop_video_stream_no_lock.
  unfold start_video_stream, start_cleanup, _setup_frame_monitoring. closure.
Qed.

Lemma stop_video_stream_keeps_config : keeps config stop_video_stream.
Proof. unfold stop_video_stream. closure. Qed.

Lemma start_video_stream_keeps_config env : keeps config (start_video_stream env).
Proof.
  pose proof stop_video_stream_keeps_config.
  unfold start_video_stream, start_cleanup, _setup_frame_monitoring. closure.
Qed.

(** A handler that has a client takes the lock once and gives it back
    once, as its last event: also when the start sequence fails and when
    the publish calls raise. *)
Theorem lock_always_released env s c hd :
  client s = Some c ->
  exists tr,
    trace_of (run_handler env hd s) = Acquire :: tr ++ [Release] /\
    Forall not_lock tr.
Proof.
  intros Hc.
  pose proof stop_video_stream_no_lock.
  pose proof (start_video_stream_no_lock env).
  destruct hd; simpl;
    unfold _handle_start_video_command, _handle_stop_video_command;
    rewrite run_bind; unfold gets at 1; rewrite Hc;
    match goal with
    | |- context [with_lock ?m s] =>
        rewrite (run_with_lock m s);
        assert (Hm : emits not_lock m) by (unfold publish; closure);
        specialize (Hm s); exists (trace_of (m s))
    end;
    by split.
Qed.

Lemma lock_always_released_witness :
  exists tr,
    trace_of (run_handler Scenario.env_broken_channel StartVideo Scenario.s0)
    = Acquire :: tr ++ [Release] /\
    Forall not_lock tr.
Proof.
  exact (lock_always_released Scenario.env_broken_channel Scenario.s0
           Scenario.sdk StartVideo eq_refl).
Defined.

(** A handler that has a client raises nothing of what the stream
    sequences raise.  The one exception that can leave it is the one of the
    publish call for "error". *)
Theorem handler_raises_only_publish_failure env s c hd :
  client s = Some c ->
  let run := run_handler env hd s in
  result_of run = Ret tt \/
  publish_result env "error" = Raises /\
  result_of run
  = Raise (Raised_by (publish_command_message (twin_uuid (config s)) "error")).
Proof.
  intros Hc. destruct hd; exec; rewrite Hc; simpl.
  - destruct (video_stream s) as [h|]; simpl.
    + destruct (publish_result env "ok"); simpl; [by left|].
      rewrite Hc. simpl. destruct (publish_result env "error"); simpl; auto.
    + pose proof (start_video_stream_keeps_client env s) as Hk.
      pose proof (start_video_stream_keeps_config env s) as Hg.
      destruct (start_video_stream env s) as [[t1 s1] [[]|e]];
        unfold state_of in *; simpl in *.
      * rewrite Hg. destruct (publish_result env "ok"); simpl; [by left|].
        rewrite Hk, Hc. simpl. rewrite Hg.
        destruct (publish_result env "error"); simpl; auto.
      * rewrite Hk, Hc. simpl. rewrite Hg.
        destruct (publish_result env "error"); simpl; auto.
  - destruct (video_stream s) as [h|] eqn:Hv; simpl.
    + destruct (stop_video_stream_run s h Hv) as (tr & E & _). rewrite E. simpl.
      destruct (publish_result env "ok"); simpl; [by left|].
      rewrite Hc. simpl. destruct (publish_result env "error"); simpl; auto.
    + destruct (publish_result env "ok"); simpl; [by left|].
      rewrite Hc. simpl. destruct (publish_result env "error"); simpl; auto.
Qed.

Lemma handler_raises_only_publish_failure_witness :
  result_of (run_handler Scenario.env_broken_channel StopVideo Scenario.s0)
  = Raise (Raised_by (publish_command_message (Some "twin-1") "error")).
Proof.
  destruct (handler_raises_only_publish_failure Scenario.env_broken_channel
              Scenario.s0 Scenario.sdk StopVideo eq_refl) as [H|[_ H]].
  - discriminate H.
  - exact H.
Defined.

(** ** The callback, for every message *)

Lemma eq_str_true v name : Py.eq_str v name = true <-> v = Py.VStr name.
Proof.
  destruct v; simpl; try (split; [discriminate|discriminate]).
  rewrite String.eqb_eq. split; [by intros ->|by intros [= ->]].
Qed.

(** The callback returns for every message and leaves the service as it
    is, also when scheduling the coroutine raises; it makes at most one
    call. *)
Theorem callback_never_raises env data s :
  let run := on_command_message env data s in
  result_of run = Ret tt /\
  state_of run = s /\
  (length (calls (trace_of run)) <= 1)%nat.
Proof.
  exec.
  destruct (bool_decide (is_Some (payload_of data !! "status"))); simpl; [auto|].
  destruct (Py.truthy (command_type_of data)); simpl; [|auto].
  destruct (event_loop s); simpl; [|auto].
  destruct (Py.eq_str (command_type_of data) "start_video"); simpl;
    [destruct (schedule_result env); simpl; auto|].
  destruct (Py.eq_str (command_type_of data) "stop_video"); simpl;
    [destruct (schedule_result env); simpl; auto|auto].
Qed.

(** A handler is handed to the event loop exactly for a message without
    [status] key whose [command] is the string of that handler, once the
    event loop is set. *)
Theorem callback_schedules env s data h :
  run_coroutine_threadsafe h ∈ calls (trace_of (on_command_message env data s)) <->
  payload_of data !! "status" = None /\
  event_loop s = true /\
  command_type_of data = Py.VStr (command_name h).
Proof.
  exec.
  destruct (payload_of data !! "status") as [v|] eqn:Hs; simpl;
    [set_unfold; split; [done|by intros [? _]]|].
  destruct (Py.eq_str (command_type_of data) "start_video") eqn:H1;
    [apply eq_str_true in H1 as ->; simpl|].
  { destruct (event_loop s); simpl;
      [|set_unfold; split; [done|by intros (_ & ? & _)]].
    destruct (schedule_result env), h; simpl; set_unfold;
      (split; [intros [?|?]; [done || discriminate|done]|]);
      intros (_ & _ & ?); (discriminate || auto). }
  destruct (Py.eq_str (command_type_of data) "stop_video") eqn:H2;
    [apply eq_str_true in H2 as ->; simpl|].
  { destruct (event_loop s); simpl;
      [|set_unfold; split; [done|by intros (_ & ? & _)]].
    destruct (schedule_result env), h; simpl; set_unfold;
      (split; [intros [?|?]; [done || discriminate|done]|]);
      intros (_ & _ & ?); (discriminate || auto). }
  assert (Hn : command_type_of data <> Py.VStr (command_name h)).
  { intros E. destruct h; simpl in E.
    - apply eq_str_true in E. congruence.
    - apply eq_str_true in E. congruence. }
  destruct (Py.truthy (command_type_of data)); simpl;
    [destruct (event_loop s); simpl|];
    set_unfold; (split; [done|by intros (_ & _ & ?)]).
Qed.

(** ** Connecting and running *)

(** Takes a goal of propositional shape apart and closes what is left by
    congruence. *)
Ltac cases :=
  repeat match goal with
         | |- _ /\ _ => split
         | |- _ <-> _ => split
         | |- _ -> _ => intros ?
         | H : _ \/ _ |- _ => destruct H
         | H : exists _, _ |- _ => destruct H
         | H : _ /\ _ |- _ => destruct H
         | H : False |- _ => destruct H
         | H : Some _ = Some _ |- _ => injection H as H; subst
         end;
  try discriminate; try congruence; eauto 8.

(** [connect] returns exactly when the SDK constructor returns, the channel
    is connected (already, or by [mqtt.connect()]) and the subscription, if
    one is made, returns.  The subscription is made exactly when the
    channel is connected and the twin identifier is not empty: without a
    twin identifier [connect] returns without having subscribed.  When the
    constructor raises the service is unchanged; otherwise it has the new
    client. *)
Theorem connect_outcome env s :
  let run := connect env s in
  let twin := twin_uuid (config s) in
  let linked c := mqtt_connected c = true \/ mqtt_connect_result env = Returns in
  (result_of run = Ret tt <->
   exists c, Cyberwave_result env = Some c /\ linked c /\
             (Py.str_falsy twin = true \/ subscribe_result env = Returns)) /\
  (mqtt_connect ∈ calls (trace_of run) <->
   exists c, Cyberwave_result env = Some c /\ mqtt_connected c = false) /\
  (subscribe_command_message twin ∈ calls (trace_of run) <->
   exists c, Cyberwave_result env = Some c /\ linked c /\
             Py.str_falsy twin = false) /\
  match Cyberwave_result env with
  | Some c => client (state_of run) = Some c
  | None => state_of run = s
  end.
Proof.
  cbv [connect _subscribe_to_commands invoke_returning when mbind M_bind mret
       M_ret gets log emit modify invoke state_of result_of trace_of calls].
  destruct (Cyberwave_result env) as [c|]; simpl; [|set_unfold; cases].
  destruct (mqtt_connected c) eqn:Hm; simpl;
    [|destruct (mqtt_connect_result env) eqn:Hmc; simpl];
    try (destruct (Py.str_falsy (twin_uuid (config s))) eqn:Hf; simpl;
         [|destruct (subscribe_result env) eqn:Hsub; simpl]);
    set_unfold; cases.
Qed.






Section Process.

Variable py_int : string -> option Z.
Variable py_strip : string -> string.
Variable set_level_result : string -> outcome.


End Process.

(** ** Loading the configuration *)

Section Settings.

Variable py_int : string -> option Z.
Variable py_strip : string -> string.

Implicit Types environ : gmap string string.

Lemma load_dotenv_lookup environ file key :
  load_dotenv environ (Some file) !! key
  = match environ !! key with
    | Some v => Some v
    | None => file !! key
    end.
Proof.
  unfold load_dotenv. rewrite lookup_union.
  by destruct (environ !! key), (file !! key).
Qed.

(** What [load_config] returns is what [EdgeConfig()] built. *)
Lemma load_config_returns environ dotenv cfg :
  (load_config py_int py_strip environ dotenv).2 = Ret cfg ->
  (validate cfg).2 = true /\
  exists log,
    EdgeConfig_new py_int (load_config py_int py_strip environ dotenv).1.1
    = (log, Ret cfg).
Proof.
  rewrite load_config_result.
  destruct (EdgeConfig_new py_int _) as [log [cfg'|e]]; [|done].
  destruct (validate cfg').2 eqn:Hv; [|done].
  intros [= <-]. eauto.
Qed.

(** A variable of the process environment wins over the [.env] file: the
    token and the twin identifier of the configuration come from the
    environment when they are set there, and from the file otherwise. *)
Theorem environment_wins_over_dotenv environ file cfg :
  (load_config py_int py_strip environ (Some file)).2 = Ret cfg ->
  cyberwave_token cfg
  = match environ !! "CYBERWAVE_TOKEN" with
    | Some v => Some v
    | None => file !! "CYBERWAVE_TOKEN"
    end /\
  twin_uuid cfg
  = match environ !! "CYBERWAVE_TWIN_UUID" with
    | Some v => Some v
    | None => file !! "CYBERWAVE_TWIN_UUID"
    end.
Proof.
  intros (_ & log & Hnew)%load_config_returns.
  destruct (EdgeConfig_new_required _ _ _ _ Hnew) as [-> ->].
  by rewrite !load_config_environ, !load_dotenv_lookup.
Qed.

Lemma getenv_int_returns environ key d :
  (exists z, getenv_int py_int environ key d = Ret z) <->
  (forall v, environ !! key = Some v -> is_Some (py_int v)).
Proof.
  unfold getenv_int. destruct (environ !! key) as [v|].
  - destruct (py_int v) as [z|] eqn:Hp.
    + split; [intros _ v' [= <-]; by eexists | by eexists].
    + split; [by intros [? ?]|].
      intros H. destruct (H v eq_refl) as [z Hz]. congruence.
  - split; [by intros _ v ?|by eexists].
Qed.

(** [load_config] returns a configuration exactly when each of the three
    numeric variables that is set parses as an integer and neither the
    token nor the twin identifier is missing or empty. *)
Theorem load_config_accepts environ dotenv :
  let effective := load_dotenv environ dotenv in
  let parses key := forall v, effective !! key = Some v -> is_Some (py_int v) in
  (exists cfg, (load_config py_int py_strip environ dotenv).2 = Ret cfg) <->
  parses "CYBERWAVE_MQTT_PORT" /\ parses "CAMERA_ID" /\ parses "CAMERA_FPS" /\
  Py.str_falsy (effective !! "CYBERWAVE_TOKEN") = false /\
  Py.str_falsy (effective !! "CYBERWAVE_TWIN_UUID") = false.
Proof.
  intros effective parses. subst parses effective. cbv beta.
  rewrite load_config_result.
  rewrite <- !(load_config_environ py_int py_strip environ dotenv) by done.
  generalize (load_config py_int py_strip environ dotenv).1.1. intros e.
  rewrite <- !(getenv_int_returns e _ (mqtt_port defaults)).
  unfold EdgeConfig_new.
  assert (Hd : forall key d d',
             (exists z, getenv_int py_int e key d = Ret z) <->
             (exists z, getenv_int py_int e key d' = Ret z)).
  { intros key d d'. by rewrite !getenv_int_returns. }
  rewrite (Hd "CAMERA_ID" _ (camera_id defaults)),
          (Hd "CAMERA_FPS" _ (camera_fps defaults)).
  destruct (getenv_int py_int e "CYBERWAVE_MQTT_PORT" _) as [port|?];
    [|split; [by intros [? ?]|by intros ([? ?] & _)]].
  destruct (getenv_int py_int e "CAMERA_ID" _) as [cam|?];
    [|split; [by intros [? ?]|by intros (_ & [? ?] & _)]].
  destruct (getenv_int py_int e "CAMERA_FPS" _) as [fps|?];
    [|split; [by intros [? ?]|by intros (_ & _ & [? ?] & _)]].
  unfold validate, getenv_opt. simpl.
  replace (match e !! "CYBERWAVE_TOKEN" with Some v => Some v | None => None end)
    with (e !! "CYBERWAVE_TOKEN") by by destruct (e !! _).
  replace (match e !! "CYBERWAVE_TWIN_UUID" with Some v => Some v | None => None end)
    with (e !! "CYBERWAVE_TWIN_UUID") by by destruct (e !! _).
  destruct (Py.str_falsy (e !! "CYBERWAVE_TOKEN")); simpl;
    [split; [by intros [? ?]|by intros (_ & _ & _ & ? & _)]|].
  destruct (Py.str_falsy (e !! "CYBERWAVE_TWIN_UUID")); simpl;
    [split; [by intros [? ?]|by intros (_ & _ & _ & _ & ?)]|].
  split; [intros _; repeat split; by eexists|by eexists].
Qed.

(** A setting that is set neither in the environment nor in the [.env]
    file takes its default: the API URL, port 1883, the device name,
    camera 0, 10 frames per second and level INFO. *)
Theorem unset_settings_take_defaults environ dotenv cfg :
  let effective := load_dotenv environ dotenv in
  (load_config py_int py_strip environ dotenv).2 = Ret cfg ->
  (effective !! "CYBERWAVE_BASE_URL" = None ->
   cyberwave_base_url cfg = "https://api.cyberwave.com") /\
  (effective !! "CYBERWAVE_MQTT_PORT" = None -> mqtt_port cfg = 1883) /\
  (effective !! "CYBERWAVE_MQTT_HOST" = None -> mqtt_host cfg = None) /\
  (effective !! "CYBERWAVE_EDGE_UUID" = None -> edge_uuid cfg = "edge-device-001") /\
  (effective !! "CAMERA_ID" = None -> camera_id cfg = 0) /\
  (effective !! "CAMERA_FPS" = None -> camera_fps cfg = 10) /\
  (effective !! "LOG_LEVEL" = None -> log_level cfg = "INFO").
Proof.
  intros effective (_ & log & Hnew)%load_config_returns. subst effective.
  rewrite <- !(load_config_environ py_int py_strip environ dotenv) by done.
  revert Hnew. generalize (load_config py_int py_strip environ dotenv).1.1.
  intros e. unfold EdgeConfig_new, getenv_int, getenv_str, getenv_opt.
  destruct (e !! "CYBERWAVE_MQTT_PORT") as [v1|];
    [destruct (py_int v1); [|done]|];
    (destruct (e !! "CAMERA_ID") as [v2|]; [destruct (py_int v2); [|done]|]);
    (destruct (e !! "CAMERA_FPS") as [v3|]; [destruct (py_int v3); [|done]|]);
    intros [= _ <-]; simpl;
    repeat split; try done; by intros ->.
Qed.


End Settings.

Lemma environment_wins_over_dotenv_witness :
  cyberwave_token Scenario.cfg1 = Some "env-token" /\
  twin_uuid Scenario.cfg1 = Some "twin-1".
Proof.
  exact (environment_wins_over_dotenv Scenario.py_int0 Scenario.py_strip0
           Scenario.environ1 Scenario.dotenv1 Scenario.cfg1
           ltac:(vm_compute; reflexivity)).
Defined.

Lemma unset_settings_take_defaults_witness :
  mqtt_port Scenario.cfg1 = 1883 /\ camera_fps Scenario.cfg1 = 10 /\
  log_level Scenario.cfg1 = "INFO".
Proof.
  destruct (unset_settings_take_defaults Scenario.py_int0 Scenario.py_strip0
              Scenario.environ1 (Some Scenario.dotenv1) Scenario.cfg1
              ltac:(vm_compute; reflexivity))
    as (_ & Hport & _ & _ & _ & Hfps & Hlevel).
  exact (conj (Hport eq_refl) (conj (Hfps eq_refl) (Hlevel eq_refl))).
Defined.

(** ** The periodic frame count *)

(** While the service is not running, or holds no stream, the task does
    nothing at all. *)
Theorem frame_count_task_stops readings s :
  running s = false \/ video_stream s = None ->
  _log_frame_count_periodically readings s = ([], s, Ret tt).
Proof.
  intros H. unfold _log_frame_count_periodically, try_except.
  destruct readings as [|reading rest]; simpl; [done|].
  cbv [mbind M_bind gets mret M_ret]. simpl.
  destruct H as [-> | ->]; [done|]. by rewrite andb_false_r.
Qed.

Lemma frame_count_task_stops_witness :
  _log_frame_count_periodically [Some 5; Some 9] Scenario.s0
  = ([], Scenario.s0, Ret tt).
Proof. apply frame_count_task_stops. right. reflexivity. Defined.

Lemma warnings_app t1 t2 : warnings (t1 ++ t2) = warnings t1 ++ warnings t2.
Proof. apply omap_app. Qed.

Lemma log_frame_counts_run last_count counts s :
  running s = true ->
  is_Some (video_stream s) ->
  exists tr,
    log_frame_counts last_count (Some <$> counts) s = (tr, s, Ret tt) /\
    calls tr = replicate (length counts) asyncio_sleep /\
    (warnings tr = [] <-> Sorted Z.lt (last_count :: counts)).
Proof.
  intros Hr Hv. revert last_count.
  induction counts as [|current counts IH]; intros last_count.
  - exists []. repeat split; auto.
  - destruct (IH current) as (tr & E & Hc & Hw).
    rewrite fmap_cons. cbn [log_frame_counts].
    rewrite run_bind. unfold gets at 1. cbv beta iota zeta.
    rewrite run_bind. unfold gets at 1. cbv beta iota zeta.
    rewrite Hr. rewrite bool_decide_true by done. cbv beta iota zeta delta [andb].
    rewrite run_bind. unfold invoke at 1. cbv beta iota zeta.
    rewrite run_bind.
    destruct (Z.ltb_spec 0 (current - last_count)) as [Hlt|Hge];
      unfold log, emit at 1; cbv beta iota zeta; rewrite E; simpl.
    + eexists. split; [reflexivity|]. simpl. rewrite Hc. split; [done|].
      rewrite Hw. split.
      * intros Hs. constructor; [done|]. constructor. lia.
      * by intros [Hs _]%Sorted_inv.
    + eexists. split; [reflexivity|]. simpl. rewrite Hc. split; [done|].
      split; [done|]. intros [_ Hh]%Sorted_inv. inversion Hh; subst. lia.
Qed.

(** While the service runs and holds a stream, the task sleeps once for
    each reading of the frame count, never raises and leaves the service as
    it is.  It logs no warning exactly when every reading is greater than
    the one before it, the first being compared with 0. *)
Theorem frame_count_warnings counts s :
  running s = true ->
  is_Some (video_stream s) ->
  let run := _log_frame_count_periodically (Some <$> counts) s in
  result_of run = Ret tt /\
  state_of run = s /\
  calls (trace_of run) = replicate (length counts) asyncio_sleep /\
  (warnings (trace_of run) = [] <-> Sorted Z.lt (0 :: counts)).
Proof.
  intros Hr Hv. cbv zeta. unfold _log_frame_count_periodically, try_except.
  destruct (log_frame_counts_run 0 counts s Hr Hv) as (tr & -> & Hc & Hw).
  by repeat split; try apply Hw.
Qed.

Lemma frame_count_warnings_witness :
  let run :=
    _log_frame_count_periodically (Some <$> [4; 9; 9])
      (Scenario.streaming Scenario.healthy) in
  result_of run = Ret tt /\
  state_of run = Scenario.streaming Scenario.healthy /\
  calls (trace_of run) = replicate 3 asyncio_sleep /\
  (warnings (trace_of run) = [] <-> Sorted Z.lt [0; 4; 9; 9]).
Proof.
  exact (frame_count_warnings [4; 9; 9] (Scenario.streaming Scenario.healthy)
           eq_refl (ex_intro _ Scenario.healthy eq_refl)).
Defined.

(** ** One stream at a time *)

#[local] Hint Extern 1 (quiet_event _) => exact I : closure.

Lemma calls_seeing_app v t1 t2 :
  calls_seeing v (t1 ++ t2)
  = calls_seeing v t1 ++ calls_seeing (field_after v t1) t2.
Proof.
  revert v. induction t1 as [|e t1 IH]; intros v; simpl; [done|].
  destruct e; simpl; by rewrite IH.
Qed.

Lemma field_after_app v t1 t2 :
  field_after v (t1 ++ t2) = field_after (field_after v t1) t2.
Proof.
  revert v. induction t1 as [|e t1 IH]; intros v; simpl; [done|].
  destruct e; simpl; by rewrite IH.
Qed.

Lemma quiet_trace v tr :
  Forall quiet_event tr ->
  Forall starts_on_empty (calls_seeing v tr) /\ field_after v tr = v.
Proof.
  induction 1 as [|e tr He _ [IH1 IH2]]; simpl; [by split|].
  destruct e as [| c r | | |]; simpl; try done.
  split; [|done]. constructor; [|done].
  by destruct c.
Qed.

Lemma teardown_is_quiet tr :
  Forall only_teardown tr -> Forall not_assign tr -> Forall quiet_event tr.
Proof.
  induction 1 as [|e tr He _ IH]; intros Ha; [constructor|].
  apply Forall_cons in Ha as [Ha1 Ha2]. constructor; [|by apply IH].
  destruct e as [| c r | | |]; try done. by destruct c.
Qed.

Lemma tracked_quiet {A} (m : M A) :
  emits quiet_event m -> keeps video_stream m -> tracked m.
Proof.
  intros He Hk s. rewrite Hk.
  by apply quiet_trace.
Qed.

Lemma tracked_bind {A B} (m : M A) (f : A -> M B) :
  tracked m -> (forall a, tracked (f a)) -> tracked (m ≫= f).
Proof.
  intros Hm Hf s. destruct (Hm s) as [H1 H2]. rewrite run_bind.
  destruct (m s) as [[t1 s1] [a|e]]; [|by split].
  destruct (Hf a s1) as [H3 H4]. destruct (f a s1) as [[t2 s2] r].
  unfold trace_of, state_of in *. simpl in *.
  rewrite calls_seeing_app, field_after_app, H2. split; [|done].
  apply Forall_app. by split.
Qed.

Lemma tracked_try_except {A} (m : M A) h :
  tracked m -> (forall e, tracked (h e)) -> tracked (try_except m h).
Proof.
  intros Hm Hh s. destruct (Hm s) as [H1 H2]. unfold try_except.
  destruct (m s) as [[t1 s1] [a|e]]; [by split|].
  destruct (Hh e s1) as [H3 H4]. destruct (h e s1) as [[t2 s2] r].
  unfold trace_of, state_of in *. simpl in *.
  rewrite calls_seeing_app, field_after_app, H2. split; [|done].
  apply Forall_app. by split.
Qed.

Lemma tracked_try_finally {A} (m : M A) f :
  tracked m -> tracked f -> tracked (try_finally m f).
Proof.
  intros Hm Hf s. destruct (Hm s) as [H1 H2]. unfold try_finally.
  destruct (m s) as [[t1 s1] r1].
  destruct (Hf s1) as [H3 H4]. destruct (f s1) as [[t2 s2] [[]|e]];
    unfold trace_of, state_of in *; simpl in *;
    rewrite calls_seeing_app, field_after_app, H2; (split; [|done]);
    apply Forall_app; by split.
Qed.

Lemma tracked_when b m : tracked m -> tracked (when b m).
Proof.
  intros H. destruct b; [exact H|]. apply tracked_quiet; closure.
Qed.

Lemma tracked_assign v : tracked (assign_video_stream v).
Proof. intros s. by split. Qed.

(** Goes through a computation for [tracked]: the combinators by their
    rules, a branch by cases, and what is left by its events. *)
Ltac track :=
  repeat first
    [ progress intros
    | assumption
    | apply tracked_assign
    | apply tracked_bind | apply tracked_try_except | apply tracked_try_finally
    | apply tracked_when
    | match goal with
      | |- tracked (match ?x with _ => _ end) => destruct x
      end
    | solve [apply tracked_quiet; closure] ].

Lemma stop_video_stream_tracked : tracked stop_video_stream.
Proof. unfold stop_video_stream. track. Qed.

Lemma setup_frame_monitoring_quiet h : emits quiet_event (_setup_frame_monitoring h).
Proof. unfold _setup_frame_monitoring. closure. Qed.

(** The start sequence starts its handle on an empty field: a stale handle
    has been taken out of the field by then. *)
Lemma start_video_stream_tracked env : tracked (start_video_stream env).
Proof.
  intros s. run_start.
  destruct (client s) as [c|]; [|by split].
  assert (Hstale : exists tr,
            Forall quiet_event tr /\
            match video_stream s with
            | Some _ =>
                stop_video_stream s
                = (Assign_video_stream None :: tr, set_video_stream None s, Ret tt)
            | None => tr = []
            end).
  { destruct (video_stream s) as [stale|] eqn:Hv; [|by exists []].
    destruct (stop_video_stream_run s stale Hv) as (tr & E & Ha & _).
    exists tr. split; [|done]. apply teardown_is_quiet; [|done].
    pose proof (stop_video_stream_only_teardown s) as Ht.
    rewrite E in Ht. by apply Forall_cons in Ht as [_ Ht]. }
  destruct Hstale as (tr & Hq & E).
  destruct (quiet_trace None tr Hq) as [Hq1 Hq2].
  destruct (video_stream s) as [stale|]; [rewrite E|subst tr];
    unfold trace_of, state_of; simpl.
  all: destruct (TimeReference_result env); simpl;
    [|rewrite ?calls_seeing_app, ?field_after_app, ?Hq2; simpl;
      split; [|done]; rewrite ?Forall_app; repeat split; try done;
      by repeat constructor].
  all: destruct (video_stream_result env) as [new|]; simpl;
    [|rewrite ?calls_seeing_app, ?field_after_app, ?Hq2; simpl;
      split; [|done]; rewrite ?Forall_app; repeat split; try done;
      by repeat constructor].
  all: destruct (start_result new); simpl.
  all: try match goal with
           | |- context [_setup_frame_monitoring ?h ?st] =>
               pose proof (setup_frame_monitoring_quiet h st) as Hmon;
               destruct (quiet_trace (Some (hid h)) _ Hmon) as [Hm1 Hm2];
               run_monitoring; simpl
           end.
  all: try match goal with
           | |- context [stop_result ?h] => destruct (stop_result h); simpl
           end.
  all: rewrite ?calls_seeing_app, ?field_after_app, ?Hq2; simpl;
    rewrite ?calls_seeing_app, ?field_after_app; simpl; rewrite ?Hm2.
  all: (split; [|done]); rewrite ?Forall_app; repeat split; try done;
    by repeat constructor.
Qed.

Lemma perform_tracked env a : tracked (perform env a).
Proof.
  pose proof stop_video_stream_tracked.
  pose proof (start_video_stream_tracked env).
  destruct a as [|data|[]|]; simpl;
    unfold connect, _subscribe_to_commands, on_command_message,
      _handle_start_video_command, _handle_stop_video_command, shutdown,
      with_lock, publish;
    track.
Qed.

Lemma history_tracked steps :
  forall s,
    Forall starts_on_empty
      (calls_seeing (hid <$> video_stream s) (history steps s).1) /\
    field_after (hid <$> video_stream s) (history steps s).1
    = hid <$> video_stream (history steps s).2.
Proof.
  induction steps as [|[env a] rest IH]; intros s; simpl; [by split|].
  destruct (perform_tracked env a s) as [H1 H2].
  destruct (IH (state_of (perform env a s))) as [H3 H4].
  destruct (history rest _) as [tr s']. simpl in *.
  rewrite calls_seeing_app, field_after_app, H2. split; [|done].
  apply Forall_app. by split.
Qed.

(** No double start.  Along any sequence of connections, messages, command
    handlers and shutdowns of a service created by [EdgeService(config)],
    [start()] is only ever called on a handle while [video_stream] is
    [None]: a stream is never started beside one the service still holds. *)
Theorem start_only_when_empty cfg steps :
  Forall starts_on_empty
    (calls_seeing None (history steps (EdgeService_new cfg)).1).
Proof. apply (history_tracked steps (EdgeService_new cfg)). Qed.

End ServiceFacts.
